(** * Foxwell CBF decoder: a shallow embedding of [parse_cbf]

    The program under study is [parse_cbf.py], a Python 2.7 script that
    decodes a Foxwell CBF capture into three headings, a list of column
    names, a table of string values and a list of error messages.

    Conventions of the embedding.
    - A Python 2 [str] is a sequence of 8-bit characters: it is modelled by
      [string], a character by [ascii].
    - [cbf[i]] with [i >= 0] is [String.get i cbf]; where Python raises
      [IndexError] the model returns the outcome [IndexError].  The cursor
      [fp] starts at 0 and only grows, so negative indices never occur and
      [fp] is a [nat].
    - Counters that stay small and non-negative ([fn], [nz], [num_fields])
      are [nat]; [read_records] and [expected_records] are [Z], the latter
      starts at [-1] and can reach [2^32 - 1].
    - Every [while] loop is a [Fixpoint] on a fuel argument; running out of
      fuel is the outcome [OutOfFuel].  Fuel monotonicity is proved below,
      together with the one way the source can really loop for ever.
    - [format_csv_field], [print_csv] and the part of the script behind the
      reading of the file are embedded as well; what they [print] is the
      list of the printed lines, in order. *)

From Stdlib Require Import String Ascii List ZArith Lia Bool Arith.
From Stdlib Require Import DecimalString DecimalZ.
Import ListNotations.

Local Open Scope string_scope.
Local Open Scope list_scope.
Local Open Scope nat_scope.

(** ** Outcomes of a run *)

Inductive outcome (A : Type) : Type :=
| Returns (a : A)
| IndexError
| OutOfFuel.

Arguments Returns {A} a.
Arguments IndexError {A}.
Arguments OutOfFuel {A}.

Definition bind {A B : Type} (m : outcome A) (k : A -> outcome B) : outcome B :=
  match m with
  | Returns a => k a
  | IndexError => IndexError
  | OutOfFuel => OutOfFuel
  end.

Notation "x <- m ;; k" := (bind m (fun x => k))
  (at level 61, m at next level, right associativity).
Notation "' p <- m ;; k" := (bind m (fun x => let p := x in k))
  (at level 61, p pattern, m at next level, right associativity).

(** ** Python primitives used by the decoder *)

(** [cbf[i]] *)
Definition index (cbf : string) (i : nat) : outcome ascii :=
  match get i cbf with
  | Some c => Returns c
  | None => IndexError
  end.

(** [ord(c)] *)
Definition ord (c : ascii) : nat := nat_of_ascii c.

(** [str(n)] on an integer: decimal digits, with a leading minus sign. *)
Definition str (n : Z) : string := NilZero.string_of_int (Z.to_int n).

(** [s.replace(old, new)] for a one-character [old]. *)
Fixpoint replace (old : ascii) (new : string) (s : string) : string :=
  match s with
  | EmptyString => EmptyString
  | String c s' =>
      if Ascii.eqb c old then (new ++ replace old new s')%string
      else String c (replace old new s')
  end.

(** [s.rstrip(ch)] for a one-character set [ch]. *)
Fixpoint rstrip (ch : ascii) (s : string) : string :=
  match s with
  | EmptyString => EmptyString
  | String c s' =>
      match rstrip ch s' with
      | EmptyString => if Ascii.eqb c ch then EmptyString else String c EmptyString
      | r => String c r
      end
  end.

(** The byte constants of the format. *)
Definition NUL : ascii := "000"%char.
Definition x06 : ascii := "006"%char.
Definition xb0 : ascii := "176"%char.
Definition xaa : ascii := "170"%char.
Definition x55 : ascii := "085"%char.
Definition x33 : ascii := "051"%char.
Definition x11 : ascii := "017"%char.
Definition space : ascii := " "%char.

(** ** The decoder *)

(** The four lists [parse_cbf] returns: headings, header, data, errors. *)
Definition result : Type :=
  (list string * list string * list (list string) * list string)%type.

(** How a heading scan leaves its loop: through the loop condition, with the
    text read and the cursor on the terminator, or through the [return]
    inside the loop body. *)
Inductive scan : Type :=
| Terminated (ft : string) (fp : nat)
| EndOfFile.

(** Lines 107-112 (and 116-121, 126-131): the loop
    [while cbf[fp] != "\x00": ft += cbf[fp]; fp += 1; if fp >= flen: return]. *)
Fixpoint read_heading (fuel : nat) (cbf : string) (fp : nat) (ft : string)
  : outcome scan :=
  match fuel with
  | O => OutOfFuel
  | S fuel' =>
      c <- index cbf fp ;;
      if Ascii.eqb c NUL then Returns (Terminated ft fp)
      else
        let ft := (ft ++ String c EmptyString)%string in
        let fp := fp + 1 in
        if String.length cbf <=? fp then Returns EndOfFile
        else read_heading fuel' cbf fp ft
  end.

(** Line 148: the text of a column once its second zero byte is reached. *)
Definition finalize (ft : string) : string :=
  rstrip space (replace xb0 "deg " ft).

(** The variables the header loop updates. *)
Record hstate : Type := mk_hstate {
  h_fp : nat;
  h_fn : nat;
  h_ft : string;
  h_nz : nat;
  h_header : list string
}.

(** Lines 147-165: the body of the header loop below its end-of-file test,
    on the byte [c = cbf[fp]]. *)
Definition header_step (c : ascii) (st : hstate) : hstate :=
  let '(mk_hstate fp fn ft nz header) := st in
  if Ascii.eqb c NUL && (0 <? nz) then
    let ft := finalize ft in
    if 0 <? String.length ft
    then mk_hstate (fp + 1) (fn + 1) EmptyString 0 (header ++ [ft])
    else mk_hstate (fp + 1) fn EmptyString 0 header
  else if Ascii.eqb c x06 then
    mk_hstate (fp + 10) fn ft nz header
  else if negb (Ascii.eqb c NUL) then
    if 31 <? ord c
    then mk_hstate (fp + 1) fn (ft ++ String c EmptyString)%string nz header
    else mk_hstate (fp + 1) fn ft nz header
  else
    if 0 <? String.length ft
    then mk_hstate (fp + 1) fn (ft ++ " ")%string (nz + 1) header
    else mk_hstate (fp + 1) fn ft (nz + 1) header.

(** Lines 143-165: [while fn < num_fields]; the result is the final state
    and the error list. *)
Fixpoint header_loop (fuel : nat) (cbf : string) (num_fields : nat)
    (st : hstate) (errors : list string) : outcome (hstate * list string) :=
  match fuel with
  | O => OutOfFuel
  | S fuel' =>
      if h_fn st <? num_fields then
        if String.length cbf <=? h_fp st then
          Returns (st, errors ++ ["end of file during header parse"])
        else
          c <- index cbf (h_fp st) ;;
          header_loop fuel' cbf num_fields (header_step c st) errors
      else Returns (st, errors)
  end.

(** The variables the inner record loop updates. *)
Record lstate : Type := mk_lstate {
  l_fp : nat;
  l_fn : nat;
  l_ft : string;
  l_dataline : list string
}.

(** Lines 178-189: [while fn < num_fields], reading one data line. *)
Fixpoint read_dataline (fuel : nat) (cbf : string) (num_fields : nat)
    (st : lstate) (errors : list string) : outcome (lstate * list string) :=
  match fuel with
  | O => OutOfFuel
  | S fuel' =>
      if l_fn st <? num_fields then
        if String.length cbf <=? l_fp st then
          Returns (st, errors ++ ["end of file during data parse"])
        else
          c <- index cbf (l_fp st) ;;
          if Ascii.eqb c NUL then
            read_dataline fuel' cbf num_fields
              (mk_lstate (l_fp st + 1) (l_fn st + 1) EmptyString
                         (l_dataline st ++ [l_ft st])) errors
          else
            read_dataline fuel' cbf num_fields
              (mk_lstate (l_fp st + 1) (l_fn st)
                         (l_ft st ++ String c EmptyString)%string
                         (l_dataline st)) errors
      else Returns (st, errors)
  end.

(** Line 193: the end-of-file mark test, with Python's short-circuit [and]. *)
Definition eof_mark (cbf : string) (fp : nat) : outcome bool :=
  c4 <- index cbf (fp + 4) ;;
  if negb (Ascii.eqb c4 xaa) then Returns false else
  c5 <- index cbf (fp + 5) ;;
  if negb (Ascii.eqb c5 x55) then Returns false else
  c6 <- index cbf (fp + 6) ;;
  if negb (Ascii.eqb c6 x33) then Returns false else
  c7 <- index cbf (fp + 7) ;;
  Returns (Ascii.eqb c7 x11).

(** Line 194: the value of four bytes, least significant first. *)
Definition le32 (c0 c1 c2 c3 : ascii) : Z :=
  (Z.of_nat (ord c0) + 256 * Z.of_nat (ord c1)
   + 65536 * Z.of_nat (ord c2) + 16777216 * Z.of_nat (ord c3))%Z.

(** Line 194: the count in front of the mark. *)
Definition trailer_count (cbf : string) (fp : nat) : outcome Z :=
  c0 <- index cbf (fp + 0) ;;
  c1 <- index cbf (fp + 1) ;;
  c2 <- index cbf (fp + 2) ;;
  c3 <- index cbf (fp + 3) ;;
  Returns (le32 c0 c1 c2 c3).

(** The variables the record loop updates. *)
Record dstate : Type := mk_dstate {
  d_fp : nat;
  d_data : list (list string);
  d_read_records : Z;
  d_expected_records : Z;
  d_errors : list string
}.

(** Lines 173-195: [while fp < flen], reading the table of data. *)
Fixpoint data_loop (fuel : nat) (cbf : string) (num_fields : nat)
    (st : dstate) : outcome dstate :=
  match fuel with
  | O => OutOfFuel
  | S fuel' =>
      let '(mk_dstate fp data read_records expected_records errors) := st in
      if fp <? String.length cbf then
        '(l, errors) <-
          read_dataline fuel cbf num_fields (mk_lstate fp 0 EmptyString []) errors ;;
        let fp := l_fp l in
        if l_fn l =? num_fields then
          let data := data ++ [l_dataline l] in
          let read_records := (read_records + 1)%Z in
          mark <- eof_mark cbf fp ;;
          if mark then
            expected_records <- trailer_count cbf fp ;;
            Returns (mk_dstate fp data read_records expected_records errors)
          else
            data_loop fuel' cbf num_fields
              (mk_dstate fp data read_records expected_records errors)
        else
          data_loop fuel' cbf num_fields
            (mk_dstate fp data read_records expected_records errors)
      else Returns st
  end.

(** Line 197: the message of a record count mismatch. *)
Definition mismatch_message (read_records expected_records : Z) : string :=
  ("read " ++ str read_records ++ " records but expected "
   ++ str expected_records ++ " records")%string.

(** Lines 196-198: the comparison after the record loop. *)
Definition reconcile (headings header : list string) (st : dstate) : result :=
  let errors :=
    if (d_read_records st =? d_expected_records st)%Z then d_errors st
    else d_errors st ++ [mismatch_message (d_read_records st) (d_expected_records st)] in
  (headings, header, d_data st, errors).

(** Line 136: the little-endian 16-bit field count. *)
Definition field_count (c0 c1 : ascii) : nat := ord c0 + 256 * ord c1.

(** How the part of [parse_cbf] in front of the record loop ends: with one
    of the [return] statements of lines 112, 121, 131 and 168, or by reaching
    line 170 with the headings, the header, the field count and the cursor
    (the error list is then empty). *)
Inductive prologue : Type :=
| Early (r : result)
| Table (headings header : list string) (num_fields fp : nat).

(** Lines 98-168. *)
Definition read_prologue (fuel : nat) (cbf : string) : outcome prologue :=
  let headings : list string := [] in
  let header : list string := [] in
  let data : list (list string) := [] in
  let errors : list string := [] in
  let fp := 0 in
  h1 <- read_heading fuel cbf fp EmptyString ;;
  match h1 with
  | EndOfFile =>
      Returns (Early (headings, header, data,
                      errors ++ ["end of file during heading 1 parse"]))
  | Terminated ft fp =>
  let headings := headings ++ [ft] in
  let fp := fp + 1 in
  h2 <- read_heading fuel cbf fp EmptyString ;;
  match h2 with
  | EndOfFile =>
      Returns (Early (headings, header, data,
                      errors ++ ["end of file during heading 2 parse"]))
  | Terminated ft fp =>
  let headings := headings ++ [ft] in
  let fp := fp + 9 in
  h3 <- read_heading fuel cbf fp EmptyString ;;
  match h3 with
  | EndOfFile =>
      Returns (Early (headings, header, data,
                      errors ++ ["end of file during heading 3 parse"]))
  | Terminated ft fp =>
  let headings := headings ++ [ft] in
  let fp := fp + 1 in
  c0 <- index cbf fp ;;
  c1 <- index cbf (fp + 1) ;;
  let num_fields := field_count c0 c1 in
  let fp := fp + 2 in
  '(h, errors) <-
    header_loop fuel cbf num_fields (mk_hstate fp 0 EmptyString 0 header) errors ;;
  let fp := h_fp h in
  let header := h_header h in
  if 0 <? List.length errors then Returns (Early (headings, header, data, errors))
  else Returns (Table headings header num_fields fp)
  end end end.

(** Lines 171-172: the state in which the record loop is entered. *)
Definition data_start (fp : nat) : dstate := mk_dstate fp [] 0 (-1) [].

(** Lines 97-198. *)
Definition parse_cbf (fuel : nat) (cbf : string) : outcome result :=
  p <- read_prologue fuel cbf ;;
  match p with
  | Early r => Returns r
  | Table headings header num_fields fp =>
      d <- data_loop fuel cbf num_fields (data_start fp) ;;
      Returns (reconcile headings header d)
  end.

(** ** Notions used in the statements *)

(** [refines o o']: [o'] is what [o] becomes with more fuel. *)
Definition refines {A : Type} (o o' : outcome A) : Prop :=
  o = OutOfFuel \/ o = o'.

(** The ways the record loop can end.  [Stopped_at_trailer]: line 195,
    the mark was found behind a completed record.  [Nothing_to_read]:
    the loop condition failed with the state untouched.  [Truncated]: the
    buffer ended inside a record. *)
Inductive loop_exit (cbf : string) (st st' : dstate) : Prop :=
| Stopped_at_trailer :
    d_errors st' = d_errors st ->
    d_data st' <> d_data st ->
    eof_mark cbf (d_fp st') = Returns true ->
    trailer_count cbf (d_fp st') = Returns (d_expected_records st') ->
    loop_exit cbf st st'
| Nothing_to_read :
    d_errors st' = d_errors st ->
    d_expected_records st' = d_expected_records st ->
    String.length cbf <= d_fp st' ->
    loop_exit cbf st st'
| Truncated :
    d_errors st' = d_errors st ++ ["end of file during data parse"] ->
    d_expected_records st' = d_expected_records st ->
    String.length cbf <= d_fp st' ->
    loop_exit cbf st st'.

(** ** Error messages *)

(** The parsing stages that report the end of the buffer. *)
Inductive stage : Type := heading1 | heading2 | heading3 | fieldheader | data.

(** The two kinds of error of the decoder; [message] is the text the source
    appends to [errors] for each. *)
Inductive ParseError : Type :=
| UnexpectedEndOfFile (s : stage)
| RecordCountMismatch (expected actual : Z).

Definition stage_name (s : stage) : string :=
  match s with
  | heading1 => "heading 1"
  | heading2 => "heading 2"
  | heading3 => "heading 3"
  | fieldheader => "header"
  | data => "data"
  end.

Definition message (e : ParseError) : string :=
  match e with
  | UnexpectedEndOfFile s => ("end of file during " ++ stage_name s ++ " parse")%string
  | RecordCountMismatch expected actual => mismatch_message actual expected
  end.

(** The two kinds are told apart by the first words of the text. *)
Definition is_eof_error (m : string) : bool := prefix "end of file during " m.
Definition is_mismatch_error (m : string) : bool := prefix "read " m.

(** Kinds of error, on the structured side. *)
Definition is_eof (e : ParseError) : bool :=
  match e with UnexpectedEndOfFile _ => true | RecordCountMismatch _ _ => false end.

(** ** Sample buffers *)

Definition bytes (l : list ascii) : string := string_of_list_ascii l.

(** The buffer of the end-to-end scenario as the specification words it:
    a second zero byte follows the terminator of the second heading. *)
Definition scenario_as_worded (o1 o2 o3 o4 o5 o6 o7 o8 : ascii) : string :=
  ("A" ++ bytes [NUL] ++ "B" ++ bytes [NUL; NUL]
   ++ bytes [o1; o2; o3; o4; o5; o6; o7; o8]
   ++ "C" ++ bytes [NUL] ++ bytes ["001"; "000"]%char
   ++ "X" ++ bytes [NUL; NUL] ++ "5" ++ bytes [NUL]
   ++ bytes ["001"; "000"; "000"; "000"; xaa; x55; x33; x11]%char)%string.

(** The same scenario in the layout of the file format: eight opaque bytes
    directly after the terminator of the second heading. *)
Definition scenario (o1 o2 o3 o4 o5 o6 o7 o8 : ascii) : string :=
  ("A" ++ bytes [NUL] ++ "B" ++ bytes [NUL]
   ++ bytes [o1; o2; o3; o4; o5; o6; o7; o8]
   ++ "C" ++ bytes [NUL] ++ bytes ["001"; "000"]%char
   ++ "X" ++ bytes [NUL; NUL] ++ "5" ++ bytes [NUL]
   ++ bytes ["001"; "000"; "000"; "000"; xaa; x55; x33; x11]%char)%string.

(** The documented value of the eight opaque bytes: 7b 14 8e 3f 00 00 00 00. *)
Definition scenario_documented : string :=
  scenario "123" "020" "142" "063" "000" "000" "000" "000".

(** A file up to the end of its one-column header. *)
Definition one_column : string :=
  ("A" ++ bytes [NUL] ++ "B" ++ bytes [NUL]
   ++ bytes ["123"; "020"; "142"; "063"; "000"; "000"; "000"; "000"]%char
   ++ "C" ++ bytes [NUL] ++ bytes ["001"; "000"]%char
   ++ "X" ++ bytes [NUL; NUL])%string.

(** One record and a trailer that announces two. *)
Definition scenario_miscounted : string :=
  (one_column ++ "5" ++ bytes [NUL]
   ++ bytes ["002"; "000"; "000"; "000"; xaa; x55; x33; x11]%char)%string.

(** The file cut right behind the terminator of its first heading. *)
Definition cut_after_heading1 : string := ("A" ++ bytes [NUL])%string.

(** The file cut inside the eight opaque bytes. *)
Definition cut_in_opaque_bytes : string :=
  ("A" ++ bytes [NUL] ++ "B" ++ bytes [NUL] ++ bytes ["123"; "020"; "142"]%char)%string.

(** The file cut inside the two bytes of the field count. *)
Definition cut_in_field_count : string :=
  ("A" ++ bytes [NUL] ++ "B" ++ bytes [NUL]
   ++ bytes ["123"; "020"; "142"; "063"; "000"; "000"; "000"; "000"]%char
   ++ "C" ++ bytes [NUL] ++ bytes ["001"]%char)%string.

(** The file cut behind its first record: no trailer. *)
Definition cut_after_record : string :=
  (one_column ++ "5" ++ bytes [NUL])%string.

(** The file cut inside its second record. *)
Definition cut_in_second_record : string :=
  (one_column ++ "5" ++ bytes [NUL] ++ "6")%string.

(** A file that announces no column, followed by bytes that hold no mark. *)
Definition no_column : string :=
  ("A" ++ bytes [NUL] ++ "B" ++ bytes [NUL]
   ++ bytes ["123"; "020"; "142"; "063"; "000"; "000"; "000"; "000"]%char
   ++ "C" ++ bytes [NUL] ++ bytes ["000"; "000"]%char
   ++ "xxxxxxxx")%string.

(** Text made of [n] spaces. *)
Fixpoint spaces (n : nat) : string :=
  match n with
  | O => EmptyString
  | S n' => String space (spaces n')
  end.

(** ** Rendering: [format_csv_field], [print_csv] and the body of the script *)

Definition quote : ascii := "034"%char.
Definition comma : ascii := ","%char.

(** [s.find(ch)] for a one-character [ch]: the lowest index of [ch] in [s],
    or [-1]. *)
Fixpoint find (ch : ascii) (s : string) : Z :=
  match s with
  | EmptyString => (-1)%Z
  | String c s' =>
      if Ascii.eqb c ch then 0%Z
      else let i := find ch s' in
           if (i <? 0)%Z then (-1)%Z else (i + 1)%Z
  end.

(** [s.lstrip(ch)] for a one-character set [ch]. *)
Fixpoint lstrip (ch : ascii) (s : string) : string :=
  match s with
  | EmptyString => EmptyString
  | String c s' => if Ascii.eqb c ch then lstrip ch s' else s
  end.

(** [s.strip(ch)] for a one-character set [ch]. *)
Definition strip (ch : ascii) (s : string) : string := rstrip ch (lstrip ch s).

(** Lines 201-208. *)
Definition format_csv_field (f : string) : string :=
  if (find quote f >=? 0)%Z then
    (String quote EmptyString
     ++ replace quote (String quote (String quote EmptyString)) f
     ++ String quote EmptyString)%string
  else if (find comma f >=? 0)%Z then
    (String quote EmptyString ++ f ++ String quote EmptyString)%string
  else f.

(** Lines 216-220: the body of the loop over the fields of one line. *)
Definition csv_add (lout f : string) : string :=
  let f := strip space f in
  if String.length lout =? 0 then format_csv_field f
  else (lout ++ "," ++ format_csv_field f)%string.

(** Lines 214-221: the text printed for one line of the table. *)
Definition csv_line (l : list string) : string := fold_left csv_add l EmptyString.

(** Lines 210-221: the lines [print_csv] prints, in order ([records] is the
    parameter [data] of the source). *)
Definition print_csv (header : list string) (records : list (list string))
  : list string :=
  let csvfile := [header] ++ records in
  map csv_line csvfile.

(** Lines 229-235: the lines the script prints once the file is read;
    [print "Error:", l] puts one space between its two items. *)
Definition report (fuel : nat) (cbf_in : string) : outcome (list string) :=
  '(headings, header, records, errors) <- parse_cbf fuel cbf_in ;;
  let out := headings in
  let out := if 0 <? List.length errors
             then out ++ map (fun l => ("Error:" ++ " " ++ l)%string) errors
             else out in
  Returns (out ++ print_csv header records).

(** ** Notions used in the statements about the result and its rendering *)

Definition chars (s : string) : list ascii := list_ascii_of_string s.

(** A character the header loop keeps and leaves as it is. *)
Definition plain (c : ascii) : Prop := 31 < ord c /\ c <> xb0.

(** What holds of a name the header loop records. *)
Definition well_formed_name (n : string) : Prop :=
  n <> EmptyString
  /\ (forall t, n <> (t ++ " ")%string)
  /\ Forall plain (chars n).

(** The bytes of one data line and of a table: every value followed by a
    zero byte. *)
Definition encode_line (l : list string) : string :=
  fold_right (fun v s => (v ++ String NUL s)%string) EmptyString l.

Definition encode_data (d : list (list string)) : string :=
  fold_right (fun l s => (encode_line l ++ s)%string) EmptyString d.

(** The number of occurrences of [ch] in [s]. *)
Fixpoint count_char (ch : ascii) (s : string) : nat :=
  match s with
  | EmptyString => 0
  | String c s' => (if Ascii.eqb c ch then 1 else 0) + count_char ch s'
  end.

(** What [print_csv] writes for one value. *)
Definition render (f : string) : string := format_csv_field (strip space f).

(** A list of texts without the empty texts at its front. *)
Fixpoint drop_empty (l : list string) : list string :=
  match l with
  | EmptyString :: l' => drop_empty l'
  | _ => l
  end.

(** ** Notions used in the statements about counts and their texts *)

(** The integer a text denotes in decimal notation, if it denotes one. *)
Definition decimal_value (s : string) : option Z :=
  option_map Z.of_int (NilZero.int_of_string s).

(** The four bytes of [n], least significant first. *)
Definition le_bytes (n : Z) : list ascii :=
  map (fun x => ascii_of_nat (Z.to_nat (x mod 256)))
      [n; (n / 256)%Z; (n / 65536)%Z; (n / 16777216)%Z].

(** The trailer of a file of [n] records: the count, then the mark. *)
Definition trailer (n : Z) : string := bytes (le_bytes n ++ [xaa; x55; x33; x11]).

(** The text [s] stands in [cbf] from offset [p] on. *)
Definition occurs_at (s : string) (p : nat) (cbf : string) : Prop :=
  forall i c, get i s = Some c -> get (p + i) cbf = Some c.

(** The bytes AA 55 33 11 stand at offsets 4 to 7 from [p]. *)
Definition mark_at (cbf : string) (p : nat) : Prop :=
  get (p + 4) cbf = Some xaa /\ get (p + 5) cbf = Some x55
  /\ get (p + 6) cbf = Some x33 /\ get (p + 7) cbf = Some x11.

(** Two records and a trailer that announces two, the second value holding
    the bytes of the mark. *)
Definition mark_inside_value : string :=
  (one_column ++ "5" ++ bytes [NUL]
   ++ "abcd" ++ bytes [xaa; x55; x33; x11; NUL]
   ++ trailer 2)%string.

(** No record and a trailer that announces none. *)
Definition no_record : string := (one_column ++ trailer 0)%string.

(** A file that announces no column, with a trailer that announces two
    records. *)
Definition no_column_two_records : string :=
  ("A" ++ bytes [NUL] ++ "B" ++ bytes [NUL]
   ++ bytes ["123"; "020"; "142"; "063"; "000"; "000"; "000"; "000"]%char
   ++ "C" ++ bytes [NUL] ++ bytes ["000"; "000"]%char
   ++ trailer 2)%string.

(** * Basic facts *)

Section Indexing.

Lemma get_None_iff (s : string) (n : nat) :
  get n s = None <-> String.length s <= n.
Proof.
  revert n; induction s as [|c s IH]; intros [|n]; simpl;
    try (split; [intros; lia | reflexivity]).
  - split; [discriminate | lia].
  - rewrite IH. lia.
Qed.

Lemma get_Some_lt (s : string) (n : nat) (c : ascii) :
  get n s = Some c -> n < String.length s.
Proof.
  intros H. destruct (Nat.lt_ge_cases n (String.length s)) as [|Hle]; auto.
  apply get_None_iff in Hle. congruence.
Qed.

Lemma index_Returns (cbf : string) (i : nat) (c : ascii) :
  index cbf i = Returns c <-> get i cbf = Some c.
Proof.
  unfold index. destruct (get i cbf); split; intros H; congruence.
Qed.

Lemma index_in_bounds (cbf : string) (i : nat) :
  i < String.length cbf -> exists c, index cbf i = Returns c.
Proof.
  intros H. unfold index. destruct (get i cbf) eqn:E; eauto.
  apply get_None_iff in E. lia.
Qed.

Lemma index_out_of_bounds (cbf : string) (i : nat) :
  String.length cbf <= i <-> index cbf i = IndexError.
Proof.
  unfold index. rewrite <- get_None_iff.
  destruct (get i cbf); split; intros H; congruence.
Qed.

Lemma index_not_OutOfFuel (cbf : string) (i : nat) :
  index cbf i <> OutOfFuel.
Proof. unfold index. destruct (get i cbf); discriminate. Qed.

End Indexing.

(** * Fuel *)

Section Fuel.

Lemma refines_refl {A} (o : outcome A) : refines o o.
Proof. right; reflexivity. Qed.

Lemma refines_bind {A B} (m m' : outcome A) (k k' : A -> outcome B) :
  refines m m' -> (forall a, refines (k a) (k' a)) ->
  refines (bind m k) (bind m' k').
Proof.
  intros [->| ->] Hk; [left; reflexivity|].
  destruct m'; simpl; auto using refines_refl.
Qed.

Lemma refines_Returns {A} (o o' : outcome A) (a : A) :
  refines o o' -> o = Returns a -> o' = Returns a.
Proof. intros [->| ->]; congruence. Qed.

Lemma refines_IndexError {A} (o o' : outcome A) :
  refines o o' -> o = IndexError -> o' = IndexError.
Proof. intros [->| ->]; congruence. Qed.

Lemma read_heading_fuel (fuel fuel' : nat) cbf fp ft :
  fuel <= fuel' ->
  refines (read_heading fuel cbf fp ft) (read_heading fuel' cbf fp ft).
Proof.
  revert fuel' fp ft; induction fuel as [|fuel IH]; intros fuel' fp ft Hle.
  - left; reflexivity.
  - destruct fuel' as [|fuel']; [lia|]. simpl.
    apply refines_bind; [apply refines_refl|]. intros c.
    destruct (Ascii.eqb c NUL); [apply refines_refl|].
    destruct (String.length cbf <=? fp + 1); [apply refines_refl|].
    apply IH; lia.
Qed.

Lemma header_loop_fuel (fuel fuel' : nat) cbf nf st errors :
  fuel <= fuel' ->
  refines (header_loop fuel cbf nf st errors)
          (header_loop fuel' cbf nf st errors).
Proof.
  revert fuel' st; induction fuel as [|fuel IH]; intros fuel' st Hle.
  - left; reflexivity.
  - destruct fuel' as [|fuel']; [lia|]. simpl.
    destruct (h_fn st <? nf); [|apply refines_refl].
    destruct (String.length cbf <=? h_fp st); [apply refines_refl|].
    apply refines_bind; [apply refines_refl|]. intros c.
    apply IH; lia.
Qed.

Lemma read_dataline_fuel (fuel fuel' : nat) cbf nf st errors :
  fuel <= fuel' ->
  refines (read_dataline fuel cbf nf st errors)
          (read_dataline fuel' cbf nf st errors).
Proof.
  revert fuel' st; induction fuel as [|fuel IH]; intros fuel' st Hle.
  - left; reflexivity.
  - destruct fuel' as [|fuel']; [lia|]. simpl.
    destruct (l_fn st <? nf); [|apply refines_refl].
    destruct (String.length cbf <=? l_fp st); [apply refines_refl|].
    apply refines_bind; [apply refines_refl|]. intros c.
    destruct (Ascii.eqb c NUL); apply IH; lia.
Qed.

Lemma data_loop_fuel (fuel fuel' : nat) cbf nf st :
  fuel <= fuel' ->
  refines (data_loop fuel cbf nf st) (data_loop fuel' cbf nf st).
Proof.
  revert fuel' st; induction fuel as [|fuel IH]; intros fuel' st Hle.
  - left; reflexivity.
  - destruct fuel' as [|fuel']; [lia|].
    cbn [data_loop]. destruct st as [fp data rr er errors].
    destruct (fp <? String.length cbf); [|apply refines_refl].
    apply refines_bind; [apply read_dataline_fuel; lia|].
    intros [l errs].
    destruct (l_fn l =? nf); [|apply IH; lia].
    apply refines_bind; [apply refines_refl|]. intros [|].
    + apply refines_refl.
    + apply IH; lia.
Qed.

Lemma read_prologue_fuel (fuel fuel' : nat) cbf :
  fuel <= fuel' ->
  refines (read_prologue fuel cbf) (read_prologue fuel' cbf).
Proof.
  intros Hle. unfold read_prologue.
  apply refines_bind; [apply read_heading_fuel; exact Hle|].
  intros [ft1 fp1|]; [|apply refines_refl].
  apply refines_bind; [apply read_heading_fuel; exact Hle|].
  intros [ft2 fp2|]; [|apply refines_refl].
  apply refines_bind; [apply read_heading_fuel; exact Hle|].
  intros [ft3 fp3|]; [|apply refines_refl].
  apply refines_bind; [apply refines_refl|]. intros c0.
  apply refines_bind; [apply refines_refl|]. intros c1.
  apply refines_bind; [apply header_loop_fuel; exact Hle|].
  intros [h errs]. apply refines_refl.
Qed.

Lemma parse_cbf_fuel (fuel fuel' : nat) cbf :
  fuel <= fuel' -> refines (parse_cbf fuel cbf) (parse_cbf fuel' cbf).
Proof.
  intros Hle. unfold parse_cbf.
  apply refines_bind; [apply read_prologue_fuel; exact Hle|].
  intros [r|hs hd nf fp]; [apply refines_refl|].
  apply refines_bind; [apply data_loop_fuel; exact Hle|].
  intros d. apply refines_refl.
Qed.

(** Two runs that both come to an end agree, whatever their fuel. *)
Lemma parse_cbf_deterministic (f1 f2 : nat) cbf (r1 r2 : result) :
  parse_cbf f1 cbf = Returns r1 -> parse_cbf f2 cbf = Returns r2 -> r1 = r2.
Proof.
  intros H1 H2. destruct (Nat.le_ge_cases f1 f2) as [Hle|Hle].
  - apply (refines_Returns _ _ r1 (parse_cbf_fuel _ _ cbf Hle)) in H1. congruence.
  - apply (refines_Returns _ _ r2 (parse_cbf_fuel _ _ cbf Hle)) in H2. congruence.
Qed.

Lemma parse_cbf_raises (f1 f2 : nat) cbf (r : result) :
  parse_cbf f1 cbf = IndexError -> parse_cbf f2 cbf <> Returns r.
Proof.
  intros H1 H2. destruct (Nat.le_ge_cases f1 f2) as [Hle|Hle].
  - apply (refines_IndexError _ _ (parse_cbf_fuel _ _ cbf Hle)) in H1. congruence.
  - apply (refines_Returns _ _ r (parse_cbf_fuel _ _ cbf Hle)) in H2. congruence.
Qed.

End Fuel.

(** * Loop invariants *)

Section Invariants.

Variable cbf : string.
Variable num_fields : nat.

(** One pass of the header loop body keeps [fn] equal to the number of
    names recorded and raises it by at most one. *)
Lemma header_step_count (c : ascii) (st : hstate) :
  h_fn st = List.length (h_header st) ->
  h_fn (header_step c st) = List.length (h_header (header_step c st))
  /\ h_fn st <= h_fn (header_step c st) <= S (h_fn st).
Proof.
  destruct st as [fp fn ft nz header]; simpl; intros ->.
  destruct (Ascii.eqb c NUL && (0 <? nz)).
  - destruct (0 <? String.length (finalize ft)); simpl;
      rewrite ?length_app; simpl; lia.
  - destruct (Ascii.eqb c x06); simpl; [lia|].
    destruct (negb (Ascii.eqb c NUL)).
    + destruct (31 <? ord c); simpl; lia.
    + destruct (0 <? String.length ft); simpl; lia.
Qed.

(** The header loop ends either with [num_fields] names and no new error,
    or at the end of the buffer with one new error and fewer names. *)
Lemma header_loop_spec (fuel : nat) (st st' : hstate) (errors errors' : list string) :
  header_loop fuel cbf num_fields st errors = Returns (st', errors') ->
  h_fn st = List.length (h_header st) ->
  h_fn st <= num_fields ->
  h_fn st' = List.length (h_header st')
  /\ ((errors' = errors /\ h_fn st' = num_fields)
      \/ (errors' = errors ++ ["end of file during header parse"]
          /\ h_fn st' < num_fields /\ String.length cbf <= h_fp st')).
Proof.
  revert st; induction fuel as [|fuel IH]; intros st Hrun Hcount Hle;
    [discriminate|].
  simpl in Hrun.
  destruct (h_fn st <? num_fields) eqn:Hlt.
  - apply Nat.ltb_lt in Hlt.
    destruct (String.length cbf <=? h_fp st) eqn:Heof.
    + apply Nat.leb_le in Heof. injection Hrun as <- <-. auto 6.
    + destruct (index cbf (h_fp st)) as [c| |]; try discriminate.
      simpl in Hrun.
      destruct (header_step_count c st Hcount) as [Hc [_ Hs]].
      apply IH in Hrun; auto; lia.
  - apply Nat.ltb_ge in Hlt. injection Hrun as <- <-.
    split; [assumption|]. left. split; [reflexivity|lia].
Qed.

(** The inner record loop ends either with [num_fields] values and no new
    error, or at the end of the buffer with one new error and fewer
    values. *)
Lemma read_dataline_spec (fuel : nat) (st st' : lstate) (errors errors' : list string) :
  read_dataline fuel cbf num_fields st errors = Returns (st', errors') ->
  l_fn st = List.length (l_dataline st) ->
  l_fn st <= num_fields ->
  l_fn st' = List.length (l_dataline st')
  /\ ((errors' = errors /\ l_fn st' = num_fields)
      \/ (errors' = errors ++ ["end of file during data parse"]
          /\ l_fn st' < num_fields /\ String.length cbf <= l_fp st')).
Proof.
  revert st; induction fuel as [|fuel IH]; intros st Hrun Hcount Hle;
    [discriminate|].
  simpl in Hrun.
  destruct (l_fn st <? num_fields) eqn:Hlt.
  - apply Nat.ltb_lt in Hlt.
    destruct (String.length cbf <=? l_fp st) eqn:Heof.
    + apply Nat.leb_le in Heof. injection Hrun as <- <-. auto 6.
    + destruct (index cbf (l_fp st)) as [c| |]; try discriminate.
      simpl in Hrun.
      destruct (Ascii.eqb c NUL); apply IH in Hrun; auto; simpl;
        rewrite ?length_app; simpl; lia.
  - apply Nat.ltb_ge in Hlt. injection Hrun as <- <-.
    split; [assumption|]. left. split; [reflexivity|lia].
Qed.

Lemma data_loop_spec (fuel : nat) (st st' : dstate) :
  data_loop fuel cbf num_fields st = Returns st' ->
  exists records,
    d_data st' = d_data st ++ records
    /\ Forall (fun r => List.length r = num_fields) records
    /\ d_read_records st' = (d_read_records st + Z.of_nat (List.length records))%Z
    /\ loop_exit cbf st st'.
Proof.
  revert st; induction fuel as [|fuel IH]; intros st Hrun; [discriminate|].
  cbn [data_loop] in Hrun. destruct st as [fp data rr er errors].
  destruct (fp <? String.length cbf) eqn:Hfp.
  - destruct (read_dataline (S fuel) cbf num_fields
                (mk_lstate fp 0 EmptyString []) errors)
      as [[l errs]| |] eqn:Hline; try discriminate.
    apply read_dataline_spec in Hline; [|reflexivity|simpl; lia].
    destruct Hline as [Hlen Hcase]. cbn [bind] in Hrun.
    destruct (l_fn l =? num_fields) eqn:Hfn.
    + apply Nat.eqb_eq in Hfn.
      destruct Hcase as [[-> _]|[_ [Hlt _]]]; [|lia].
      destruct (eof_mark cbf (l_fp l)) as [[|]| |] eqn:Hmark;
        try discriminate; cbn [bind] in Hrun.
      * destruct (trailer_count cbf (l_fp l)) as [n| |] eqn:Hn;
          try discriminate.
        injection Hrun as <-. exists [l_dataline l]. simpl.
        split; [reflexivity|]. split; [repeat constructor; lia|].
        split; [lia|].
        apply Stopped_at_trailer; simpl; auto.
        intros Heq. apply (f_equal (@List.length _)) in Heq.
        rewrite length_app in Heq. simpl in Heq. lia.
      * apply IH in Hrun. destruct Hrun as [records [Hd [Hall [Hrr Hexit]]]].
        simpl in *. exists (l_dataline l :: records).
        rewrite Hd, <- app_assoc. simpl.
        split; [reflexivity|]. split; [constructor; [lia|assumption]|].
        split; [lia|].
        destruct Hexit as [He Hne Hm Ht|He Hx Hf|He Hx Hf]; simpl in *.
        -- apply Stopped_at_trailer; simpl; auto.
           rewrite Hd, <- app_assoc. intros Heq.
           apply (f_equal (@List.length _)) in Heq.
           rewrite length_app in Heq. simpl in Heq. lia.
        -- apply Nothing_to_read; auto.
        -- apply Truncated; auto.
    + apply Nat.eqb_neq in Hfn.
      destruct Hcase as [[_ Heq]|[-> [Hlt Heof]]]; [lia|].
      destruct fuel as [|fuel]; [discriminate|].
      cbn [data_loop] in Hrun.
      apply Nat.ltb_ge in Heof. rewrite Heof in Hrun.
      injection Hrun as <-. exists []. simpl. rewrite app_nil_r.
      split; [reflexivity|]. split; [constructor|]. split; [lia|].
      apply Truncated; simpl; auto. apply Nat.ltb_ge; exact Heof.
  - injection Hrun as <-. exists []. simpl. rewrite app_nil_r.
    split; [reflexivity|]. split; [constructor|]. split; [lia|].
    apply Nothing_to_read; simpl; auto. apply Nat.ltb_ge; exact Hfp.
Qed.

End Invariants.

Section Messages.

Lemma eof_message_kind (s : stage) :
  is_eof_error (message (UnexpectedEndOfFile s)) = true
  /\ is_mismatch_error (message (UnexpectedEndOfFile s)) = false.
Proof. destruct s; split; reflexivity. Qed.

Lemma mismatch_message_kind (expected actual : Z) :
  is_eof_error (message (RecordCountMismatch expected actual)) = false
  /\ is_mismatch_error (message (RecordCountMismatch expected actual)) = true.
Proof.
  unfold is_eof_error, is_mismatch_error. simpl.
  split; [reflexivity|]. destruct (str actual ++ _)%string; reflexivity.
Qed.

End Messages.

(** * The part in front of the record loop *)

Section Prologue.

(** An early return carries no record and exactly one end-of-file error, of
    a stage in front of the table of data; otherwise the header has
    [num_fields] names and there are three headings. *)
Lemma read_prologue_spec (fuel : nat) (cbf : string) (p : prologue) :
  read_prologue fuel cbf = Returns p ->
  match p with
  | Early (headings, header, records, errors) =>
      records = []
      /\ exists s, s <> data /\ errors = [message (UnexpectedEndOfFile s)]
  | Table headings header num_fields fp =>
      List.length header = num_fields /\ List.length headings = 3
  end.
Proof.
  unfold read_prologue. intros H.
  destruct (read_heading fuel cbf 0 EmptyString) as [[ft1 fp1|]| |];
    try discriminate; cbn [bind] in H.
  2:{ injection H as <-. split; [reflexivity|].
      exists heading1. split; [discriminate|reflexivity]. }
  destruct (read_heading fuel cbf (fp1 + 1) EmptyString) as [[ft2 fp2|]| |];
    try discriminate; cbn [bind] in H.
  2:{ injection H as <-. split; [reflexivity|].
      exists heading2. split; [discriminate|reflexivity]. }
  destruct (read_heading fuel cbf (fp2 + 9) EmptyString) as [[ft3 fp3|]| |];
    try discriminate; cbn [bind] in H.
  2:{ injection H as <-. split; [reflexivity|].
      exists heading3. split; [discriminate|reflexivity]. }
  destruct (index cbf (fp3 + 1)) as [c0| |]; try discriminate; cbn [bind] in H.
  destruct (index cbf (fp3 + 1 + 1)) as [c1| |]; try discriminate; cbn [bind] in H.
  destruct (header_loop fuel cbf (field_count c0 c1)
              (mk_hstate (fp3 + 1 + 2) 0 EmptyString 0 []) [])
    as [[h errs]| |] eqn:Hloop; try discriminate; cbn [bind] in H.
  apply header_loop_spec in Hloop; [|reflexivity|simpl; lia].
  destruct Hloop as [Hcount [[-> Hfn]|[-> _]]].
  - cbn [List.length Nat.ltb Nat.leb] in H. injection H as <-.
    split; [congruence|reflexivity].
  - cbn [List.length app Nat.ltb Nat.leb] in H. injection H as <-.
    split; [reflexivity|].
    exists fieldheader. split; [discriminate|reflexivity].
Qed.

End Prologue.

(** * The whole decoder *)

Section Decoder.

(** A run that returns went through one of the early [return]s or through
    the record loop and the final comparison. *)
Lemma parse_cbf_inv (fuel : nat) (cbf : string) (r : result) :
  parse_cbf fuel cbf = Returns r ->
  read_prologue fuel cbf = Returns (Early r)
  \/ exists headings header num_fields fp st,
       read_prologue fuel cbf = Returns (Table headings header num_fields fp)
       /\ data_loop fuel cbf num_fields (data_start fp) = Returns st
       /\ r = reconcile headings header st.
Proof.
  unfold parse_cbf. intros H.
  destruct (read_prologue fuel cbf) as [[r'|hs hd nf fp]| |];
    try discriminate; cbn [bind] in H.
  - left. congruence.
  - right. destruct (data_loop fuel cbf nf (data_start fp)) as [st| |] eqn:Hd;
      try discriminate; cbn [bind] in H.
    exists hs, hd, nf, fp, st. repeat split; congruence.
Qed.

Lemma ord_bounded (c : ascii) : ord c < 256.
Proof. apply nat_ascii_bounded. Qed.

Lemma le32_range (c0 c1 c2 c3 : ascii) : (0 <= le32 c0 c1 c2 c3 < 2 ^ 32)%Z.
Proof.
  unfold le32.
  pose proof (ord_bounded c0). pose proof (ord_bounded c1).
  pose proof (ord_bounded c2). pose proof (ord_bounded c3).
  change (2 ^ 32)%Z with 4294967296%Z. lia.
Qed.

(** The count read in front of the mark is an unsigned 32-bit value. *)
Lemma trailer_count_range (cbf : string) (fp : nat) (n : Z) :
  trailer_count cbf fp = Returns n -> (0 <= n < 2 ^ 32)%Z.
Proof.
  unfold trailer_count. intros H.
  destruct (index cbf (fp + 0)) as [c0| |]; try discriminate; cbn [bind] in H.
  destruct (index cbf (fp + 1)) as [c1| |]; try discriminate; cbn [bind] in H.
  destruct (index cbf (fp + 2)) as [c2| |]; try discriminate; cbn [bind] in H.
  destruct (index cbf (fp + 3)) as [c3| |]; try discriminate; cbn [bind] in H.
  injection H as <-. apply le32_range.
Qed.

(** The record loop, entered as [parse_cbf] enters it. *)
Lemma data_loop_from_start (fuel : nat) (cbf : string) (num_fields fp : nat)
    (st : dstate) :
  data_loop fuel cbf num_fields (data_start fp) = Returns st ->
  d_read_records st = Z.of_nat (List.length (d_data st))
  /\ Forall (fun r => List.length r = num_fields) (d_data st)
  /\ ((d_errors st = [] /\ d_data st <> []
       /\ eof_mark cbf (d_fp st) = Returns true
       /\ trailer_count cbf (d_fp st) = Returns (d_expected_records st))
      \/ (d_errors st = [] /\ d_expected_records st = (-1)%Z
          /\ String.length cbf <= d_fp st)
      \/ (d_errors st = [message (UnexpectedEndOfFile data)]
          /\ d_expected_records st = (-1)%Z
          /\ String.length cbf <= d_fp st)).
Proof.
  intros H. apply data_loop_spec in H.
  destruct H as [records [Hd [Hall [Hrr Hexit]]]]. simpl in Hd, Hrr.
  rewrite Hd. split; [lia|]. split; [assumption|].
  destruct Hexit as [He Hne Hm Ht|He Hx Hf|He Hx Hf]; simpl in *.
  - left. rewrite <- Hd. auto.
  - right; left. auto.
  - right; right. auto.
Qed.

(** The eof mark is out of reach once the cursor has left the buffer. *)
Lemma eof_mark_out_of_bounds (cbf : string) (fp : nat) :
  String.length cbf <= fp -> eof_mark cbf fp = IndexError.
Proof.
  intros H. unfold eof_mark.
  assert (Hi : index cbf (fp + 4) = IndexError)
    by (apply index_out_of_bounds; lia).
  rewrite Hi. reflexivity.
Qed.

End Decoder.

Section Reconciliation.

Lemma parse_cbf_through_loop (fuel : nat) (cbf : string) headings header
    (num_fields fp : nat) (st : dstate) :
  read_prologue fuel cbf = Returns (Table headings header num_fields fp) ->
  data_loop fuel cbf num_fields (data_start fp) = Returns st ->
  parse_cbf fuel cbf = Returns (reconcile headings header st).
Proof. intros Hp Hd. unfold parse_cbf. rewrite Hp. simpl. rewrite Hd. reflexivity. Qed.

Lemma is_eof_error_message (e : ParseError) :
  is_eof_error (message e) = is_eof e.
Proof.
  destruct e as [s|x a]; [apply eof_message_kind | apply mismatch_message_kind].
Qed.

Lemma is_mismatch_error_message (e : ParseError) :
  is_mismatch_error (message e) = negb (is_eof e).
Proof.
  destruct e as [s|x a]; [apply eof_message_kind | apply mismatch_message_kind].
Qed.

(** What [reconcile] does to the error list, in terms of [message]. *)
Lemma reconcile_errors headings header (st : dstate) :
  d_read_records st = Z.of_nat (List.length (d_data st)) ->
  reconcile headings header st =
    (headings, header, d_data st,
     if (Z.of_nat (List.length (d_data st)) =? d_expected_records st)%Z
     then d_errors st
     else d_errors st
          ++ [message (RecordCountMismatch (d_expected_records st)
                         (Z.of_nat (List.length (d_data st))))]).
Proof. intros H. unfold reconcile. rewrite H. reflexivity. Qed.

End Reconciliation.

(** * The claims *)

(** C2.  Every record of a returned result has as many values as the
    returned header has names.  A data line that the end of the buffer cuts
    short is not appended: the record loop returns with the records it had
    and with the error "end of file during data parse" added. *)
Theorem records_match_header_arity :
  (forall (fuel : nat) (cbf : string) headings header records errors,
      parse_cbf fuel cbf = Returns (headings, header, records, errors) ->
      forall i r, nth_error records i = Some r ->
                  List.length r = List.length header)
  /\ (forall (fuel : nat) (cbf : string) (num_fields : nat) (st : dstate)
             (l : lstate) (errors' : list string),
         d_fp st < String.length cbf ->
         read_dataline (S (S fuel)) cbf num_fields
           (mk_lstate (d_fp st) 0 EmptyString []) (d_errors st)
         = Returns (l, errors') ->
         l_fn l <> num_fields ->
         List.length (l_dataline l) < num_fields
         /\ errors' = d_errors st ++ [message (UnexpectedEndOfFile data)]
         /\ data_loop (S (S fuel)) cbf num_fields st
            = Returns (mk_dstate (l_fp l) (d_data st) (d_read_records st)
                                 (d_expected_records st) errors')).
Proof.
  split.
  - intros fuel cbf headings header records errors Hrun i r Hi.
    apply parse_cbf_inv in Hrun.
    destruct Hrun as [Hearly|[hs [hd [nf [fp [st [Hp [Hd Hr]]]]]]]].
    + apply read_prologue_spec in Hearly. destruct Hearly as [-> _].
      destruct i; discriminate.
    + apply read_prologue_spec in Hp. destruct Hp as [Hlen _].
      apply data_loop_from_start in Hd. destruct Hd as [_ [Hall _]].
      unfold reconcile in Hr. injection Hr as -> -> -> _.
      rewrite Forall_forall in Hall. rewrite Hlen. apply Hall.
      eapply nth_error_In; eassumption.
  - intros fuel cbf num_fields [fp records rr er errors] l errors' Hfp Hline Hfn.
    cbn [d_fp d_errors d_data d_read_records d_expected_records] in *.
    pose proof Hline as Hspec.
    apply read_dataline_spec in Hspec; [|reflexivity|simpl; lia].
    destruct Hspec as [Hcount [[_ Heq]|[-> [Hlt Heof]]]]; [contradiction|].
    split; [lia|]. split; [reflexivity|].
    cbn [data_loop]. apply Nat.ltb_lt in Hfp. rewrite Hfp, Hline. cbn [bind].
    apply Nat.eqb_neq in Hfn. rewrite Hfn.
    apply Nat.ltb_ge in Heof. rewrite Heof. reflexivity.
Qed.

(** C10.  The error list of a returned result is one of: empty; one
    end-of-file error of a stage in front of the table of data (and then no
    record was read); one record count mismatch; the end-of-file error of the
    data stage followed by a record count mismatch.  So it has at most two
    entries, at most one of each kind, and an end-of-file error comes before
    a mismatch. *)
Theorem error_list_at_most_two (fuel : nat) (cbf : string)
    headings header records errors :
  parse_cbf fuel cbf = Returns (headings, header, records, errors) ->
  (exists pe,
      errors = map message pe
      /\ (pe = []
          \/ (exists s, s <> data /\ pe = [UnexpectedEndOfFile s] /\ records = [])
          \/ (exists expected,
                 pe = [RecordCountMismatch expected (Z.of_nat (List.length records))])
          \/ pe = [UnexpectedEndOfFile data;
                   RecordCountMismatch (-1) (Z.of_nat (List.length records))]))
  /\ List.length errors <= 2
  /\ List.length (filter is_eof_error errors) <= 1
  /\ List.length (filter is_mismatch_error errors) <= 1
  /\ (forall i j m m',
         nth_error errors i = Some m -> is_eof_error m = true ->
         nth_error errors j = Some m' -> is_mismatch_error m' = true ->
         i < j).
Proof.
  intros Hrun.
  assert (Hshape : exists pe,
             errors = map message pe
             /\ (pe = []
                 \/ (exists s, s <> data /\ pe = [UnexpectedEndOfFile s] /\ records = [])
                 \/ (exists expected,
                        pe = [RecordCountMismatch expected
                                (Z.of_nat (List.length records))])
                 \/ pe = [UnexpectedEndOfFile data;
                          RecordCountMismatch (-1) (Z.of_nat (List.length records))])).
  { apply parse_cbf_inv in Hrun.
    destruct Hrun as [Hearly|[hs [hd [nf [fp [st [Hp [Hd Hr]]]]]]]].
    - apply read_prologue_spec in Hearly. destruct Hearly as [-> [s [Hs ->]]].
      exists [UnexpectedEndOfFile s]. split; [reflexivity|]. right; left.
      exists s. auto.
    - apply data_loop_from_start in Hd. destruct Hd as [Hrr [_ Hexit]].
      rewrite (reconcile_errors _ _ _ Hrr) in Hr. injection Hr as -> -> -> ->.
      destruct (Z.of_nat (List.length (d_data st)) =? d_expected_records st)%Z
        eqn:Hcmp.
      + destruct Hexit as [[-> _]|[[-> _]|[_ [Hx _]]]].
        * exists []. auto.
        * exists []. auto.
        * apply Z.eqb_eq in Hcmp. lia.
      + destruct Hexit as [[-> _]|[[-> _]|[-> [-> _]]]].
        * exists [RecordCountMismatch (d_expected_records st)
                    (Z.of_nat (List.length (d_data st)))].
          split; [reflexivity|]. right; right; left. eauto.
        * exists [RecordCountMismatch (d_expected_records st)
                    (Z.of_nat (List.length (d_data st)))].
          split; [reflexivity|]. right; right; left. eauto.
        * exists [UnexpectedEndOfFile data;
                  RecordCountMismatch (-1) (Z.of_nat (List.length (d_data st)))].
          split; [reflexivity|]. auto. }
  split; [exact Hshape|].
  destruct Hshape as [pe [-> Hpe]].
  assert (Hkinds : List.length pe <= 2
                   /\ List.length (filter is_eof pe) <= 1
                   /\ List.length (filter (fun e => negb (is_eof e)) pe) <= 1
                   /\ forall i j e e',
                       nth_error pe i = Some e -> is_eof e = true ->
                       nth_error pe j = Some e' -> is_eof e' = false -> i < j).
  { destruct Hpe as [->|[[s [_ [-> _]]]|[[x ->]| ->]]]; simpl;
      (split; [lia|]); (split; [lia|]); (split; [lia|]);
      intros [|[|i]] [|[|j]] e e' Hi He Hj He'; simpl in Hi, Hj;
      try discriminate; try lia;
      try (destruct i; discriminate); try (destruct j; discriminate);
      injection Hi as <-; injection Hj as <-; discriminate. }
  destruct Hkinds as [Hlen [Heofs [Hmis Horder]]].
  assert (Hfe : forall l, filter is_eof_error (map message l)
                          = map message (filter is_eof l)).
  { induction l as [|e l IH]; [reflexivity|]. cbn [map filter].
    rewrite is_eof_error_message, IH. destruct (is_eof e); reflexivity. }
  assert (Hfm : forall l, filter is_mismatch_error (map message l)
                          = map message (filter (fun e => negb (is_eof e)) l)).
  { induction l as [|e l IH]; [reflexivity|]. cbn [map filter].
    rewrite is_mismatch_error_message, IH. destruct (is_eof e); reflexivity. }
  rewrite Hfe, Hfm, !length_map.
  split; [exact Hlen|]. split; [exact Heofs|]. split; [exact Hmis|].
  intros i j m m' Hi Hm Hj Hm'.
  rewrite nth_error_map in Hi, Hj.
  destruct (nth_error pe i) as [e|] eqn:Ei; [|discriminate].
  destruct (nth_error pe j) as [e'|] eqn:Ej; [|discriminate].
  injection Hi as <-. injection Hj as <-.
  rewrite is_eof_error_message in Hm. rewrite is_mismatch_error_message in Hm'.
  apply (Horder i j e e' Ei Hm Ej). destruct (is_eof e'); [discriminate|reflexivity].
Qed.

Section Divergence.

(** With [num_fields = 0] every pass of the record loop appends an empty
    record and leaves the cursor where it was: unless the mark test stops
    or raises, the loop of the source never ends.  No fuel is enough. *)
Lemma data_loop_no_column (fuel : nat) (cbf : string) (st : dstate) :
  d_fp st < String.length cbf ->
  eof_mark cbf (d_fp st) = Returns false ->
  data_loop fuel cbf 0 st = OutOfFuel.
Proof.
  revert st; induction fuel as [|fuel IH]; intros st Hfp Hmark;
    [reflexivity|].
  destruct st as [fp records rr er errors]. cbn [data_loop d_fp] in *.
  apply Nat.ltb_lt in Hfp. rewrite Hfp.
  cbn [read_dataline l_fn Nat.ltb Nat.leb bind l_fp].
  cbn [Nat.eqb]. rewrite Hmark. cbn [bind].
  apply IH; cbn [d_fp]; [apply Nat.ltb_lt; exact Hfp | exact Hmark].
Qed.

Lemma no_column_never_returns (fuel : nat) :
  parse_cbf fuel no_column = OutOfFuel.
Proof.
  unfold parse_cbf.
  destruct (Nat.le_ge_cases 4 fuel) as [Hle|Hge].
  - assert (Hp : read_prologue fuel no_column
                 = Returns (Table ["A"; "B"; "C"] [] 0 16)).
    { apply (refines_Returns (read_prologue 4 no_column));
        [apply read_prologue_fuel; exact Hle | vm_compute; reflexivity]. }
    rewrite Hp. cbn [bind].
    rewrite data_loop_no_column;
      [reflexivity | apply Nat.ltb_lt | ]; vm_compute; reflexivity.
  - do 5 (destruct fuel as [|fuel]; [vm_compute; reflexivity|]). lia.
Qed.

End Divergence.

Section Truncation.

(** A scan that meets no zero byte runs to the end of the buffer and leaves
    through the [return] inside the loop. *)
Lemma read_heading_no_terminator (fuel : nat) (cbf : string) (fp : nat) (ft : string) :
  fp < String.length cbf ->
  (forall i c, fp <= i -> get i cbf = Some c -> c <> NUL) ->
  String.length cbf - fp <= fuel ->
  read_heading fuel cbf fp ft = Returns EndOfFile.
Proof.
  revert fp ft; induction fuel as [|fuel IH]; intros fp ft Hfp Hnz Hfuel; [lia|].
  simpl. destruct (index_in_bounds cbf fp Hfp) as [c Hc]. rewrite Hc. simpl.
  apply index_Returns in Hc.
  destruct (Ascii.eqb c NUL) eqn:Hz.
  - apply Ascii.eqb_eq in Hz. exfalso. exact (Hnz fp c (le_n _) Hc Hz).
  - destruct (String.length cbf <=? fp + 1) eqn:Hend; [reflexivity|].
    apply Nat.leb_gt in Hend. apply IH; [exact Hend | | lia].
    intros i c' Hi. apply Hnz. lia.
Qed.

(** A non-empty buffer without any zero byte is reported as cut inside the
    first heading, with nothing else in the result. *)
Lemma truncated_in_heading1 (fuel : nat) (cbf : string) :
  cbf <> EmptyString ->
  (forall i c, get i cbf = Some c -> c <> NUL) ->
  String.length cbf <= fuel ->
  parse_cbf fuel cbf
  = Returns ([], [], [], [message (UnexpectedEndOfFile heading1)]).
Proof.
  intros Hne Hnz Hfuel. unfold parse_cbf, read_prologue.
  rewrite read_heading_no_terminator; [reflexivity| | |lia].
  - destruct cbf; [contradiction|simpl; lia].
  - intros i c _. apply Hnz.
Qed.

End Truncation.

(** C1, on the code.  The decoder reads outside the buffer and raises
    [IndexError], returning nothing, on: the empty buffer; a buffer that ends
    on the terminator of its first heading; a buffer that ends inside the
    eight opaque bytes; a buffer that ends inside the field count; a buffer
    that ends behind a completed record with no trailer. *)
Theorem out_of_bounds_reads :
  Forall (fun cbf => parse_cbf 4 cbf = IndexError
                     /\ ~ exists fuel r, parse_cbf fuel cbf = Returns r)
         [EmptyString; cut_after_heading1; cut_in_opaque_bytes;
          cut_in_field_count; cut_after_record].
Proof.
  assert (Hraise : forall cbf,
             parse_cbf 4 cbf = IndexError ->
             parse_cbf 4 cbf = IndexError
             /\ ~ exists fuel r, parse_cbf fuel cbf = Returns r).
  { intros cbf H. split; [exact H|]. intros [fuel [r Hr]].
    exact (parse_cbf_raises 4 fuel cbf r H Hr). }
  do 5 (apply Forall_cons; [apply Hraise; vm_compute; reflexivity|]).
  apply Forall_nil.
Qed.

(** C5, on the code.  A file cut inside its second record makes the decoder
    raise [IndexError] in the look-ahead behind the first record: no result
    and no error list are returned.  The same file cut inside its first
    record is reported with the end-of-file error of the data stage. *)
Theorem truncated_record_raises :
  parse_cbf 4 cut_in_second_record = IndexError
  /\ (~ exists fuel r, parse_cbf fuel cut_in_second_record = Returns r)
  /\ parse_cbf 4 (one_column ++ "5")
     = Returns (["A"; "B"; "C"], ["X"], [],
                [message (UnexpectedEndOfFile data);
                 message (RecordCountMismatch (-1) 0)]).
Proof.
  split; [vm_compute; reflexivity|]. split; [|vm_compute; reflexivity].
  intros [fuel [r H]]; revert H; apply (parse_cbf_raises 4).
  vm_compute; reflexivity.
Qed.

Section ColumnText.

Lemma list_ascii_of_string_app (s t : string) :
list_ascii_of_string (s ++ t) = list_ascii_of_string s ++ list_ascii_of_string t.
Proof. induction s as [|c s IH]; simpl; [reflexivity|]. rewrite IH. reflexivity. Qed.

(** [replace] maps every character to itself, and [old] to [new]. *)
Lemma replace_flat_map (old : ascii) (new s : string) :
list_ascii_of_string (replace old new s)
= flat_map (fun c => if Ascii.eqb c old then list_ascii_of_string new else [c])
           (list_ascii_of_string s).
Proof.
induction s as [|c s IH]; simpl; [reflexivity|].
destruct (Ascii.eqb c old); simpl.
- rewrite list_ascii_of_string_app, IH. reflexivity.
- rewrite IH. reflexivity.
Qed.

(** [rstrip] removes a run of [ch] at the end ... *)
Lemma rstrip_suffix (s : string) :
exists n, s = (rstrip space s ++ spaces n)%string.
Proof.
induction s as [|c s [n IH]]; simpl.
- exists 0. reflexivity.
- destruct (rstrip space s) as [|a r] eqn:E.
  + simpl in IH. destruct (Ascii.eqb c space) eqn:Ec.
    * apply Ascii.eqb_eq in Ec. subst c. exists (S n). simpl. rewrite <- IH. reflexivity.
    * exists n. simpl. rewrite <- IH. reflexivity.
  + exists n. simpl. simpl in IH. rewrite <- IH. reflexivity.
Qed.

(** ... and all of it. *)
Lemma rstrip_no_trailing (ch : ascii) (s t : string) :
rstrip ch s <> (t ++ String ch EmptyString)%string.
Proof.
revert t; induction s as [|c s IH]; intros t; simpl.
- destruct t; discriminate.
- destruct (rstrip ch s) as [|a r] eqn:E.
  + destruct (Ascii.eqb c ch) eqn:Ec.
    * destruct t; discriminate.
    * destruct t as [|c' t]; simpl; intros H.
      -- injection H as Hc. subst c. rewrite Ascii.eqb_refl in Ec. discriminate.
      -- injection H as _ Ht. destruct t; discriminate.
  + destruct t as [|c' t]; simpl; intros H.
    * discriminate.
    * injection H as _ Ht. apply (IH t). exact Ht.
Qed.

End ColumnText.

(** C3, as worded.  Whatever the eight opaque bytes are, the decoder does not
    return the announced result on the buffer with a second zero byte behind
    the second heading: its third heading is then either empty or begins with
    the last opaque byte. *)
Lemma worded_scenario_not_decoded :
  ~ exists o1 o2 o3 o4 o5 o6 o7 o8 fuel,
      parse_cbf fuel (scenario_as_worded o1 o2 o3 o4 o5 o6 o7 o8)
      = Returns (["A"; "B"; "C"], ["X"], [["5"]], []).
Proof.
  intros [o1 [o2 [o3 [o4 [o5 [o6 [o7 [o8 [fuel H]]]]]]]]].
  assert (H40 : exists r,
             parse_cbf 40 (scenario_as_worded o1 o2 o3 o4 o5 o6 o7 o8) = Returns r
             /\ r <> (["A"; "B"; "C"], ["X"], [["5"]], [])).
  { destruct o8 as [[] [] [] [] [] [] [] []];
      eexists; (split; [vm_compute; reflexivity | discriminate]). }
  destruct H40 as [r [Hr Hne]]. apply Hne.
  exact (parse_cbf_deterministic _ _ _ _ _ Hr H).
Qed.

(** C3, amended.  On the buffer A 00 B 00, eight opaque bytes, C 00, 01 00,
    X 00 00, 5 00, 01 00 00 00 AA 55 33 11 the decoder returns the headings
    A, B, C, the field X, the record 5 and no error. *)
Theorem scenario_decoded (o1 o2 o3 o4 o5 o6 o7 o8 : ascii) (fuel : nat) :
  4 <= fuel ->
  parse_cbf fuel (scenario o1 o2 o3 o4 o5 o6 o7 o8)
  = Returns (["A"; "B"; "C"], ["X"], [["5"]], []).
Proof.
  intros Hle.
  apply (refines_Returns (parse_cbf 4 (scenario o1 o2 o3 o4 o5 o6 o7 o8)));
    [apply parse_cbf_fuel; exact Hle | vm_compute; reflexivity].
Qed.

Lemma scenario_decoded_witness :
  4 <= 4
  /\ parse_cbf 4 scenario_documented = Returns (["A"; "B"; "C"], ["X"], [["5"]], []).
Proof.
  split; [lia|]. unfold scenario_documented. apply scenario_decoded. lia.
Defined.

(** C4, as worded.  The accumulated text "Temp\xB0" is finalized to
    "Tempdeg", not to "Temp deg": the replacement text starts with no space.
    So is the column of the field block Temp B0 00 00. *)
Lemma degree_sign_not_spaced :
  finalize ("Temp" ++ bytes [xb0]) = "Tempdeg"
  /\ finalize ("Temp" ++ bytes [xb0]) <> "Temp deg"
  /\ header_loop 8 ("Temp" ++ bytes [xb0; NUL; NUL]) 1
       (mk_hstate 0 0 EmptyString 0 []) []
     = Returns (mk_hstate 7 1 EmptyString 0 ["Tempdeg"], []).
Proof.
  split; [vm_compute; reflexivity|]. split; [vm_compute; discriminate|].
  vm_compute; reflexivity.
Qed.

(** C4, amended.  When a field name is finalized, every byte 0xB0 of the
    accumulated text is replaced by the four characters "deg " and every other
    character is kept; then the spaces at the end, and only they, are removed.
    The finalized text is what the header loop records at the second zero
    byte.  The accumulated run for "Temp\xB0" yields the field name
    "Tempdeg": so does the text itself, so does the text with the space the
    first zero byte adds to it, and so does the field block Temp B0 00 00
    read by the header loop. *)
Theorem degree_sign_rendering :
  (forall ft,
      list_ascii_of_string (replace xb0 "deg " ft)
      = flat_map (fun c => if Ascii.eqb c xb0
                           then list_ascii_of_string "deg " else [c])
                 (list_ascii_of_string ft))
  /\ (forall ft, exists n, replace xb0 "deg " ft = (finalize ft ++ spaces n)%string)
  /\ (forall ft t, finalize ft <> (t ++ " ")%string)
  /\ (forall st, 0 < h_nz st -> finalize (h_ft st) <> EmptyString ->
                 h_header (header_step NUL st)
                 = h_header st ++ [finalize (h_ft st)])
  /\ finalize ("Temp" ++ bytes [xb0]) = "Tempdeg"
  /\ finalize ("Temp" ++ bytes [xb0] ++ " ") = "Tempdeg"
  /\ (forall fuel,
         header_loop (6 + fuel) ("Temp" ++ bytes [xb0; NUL; NUL]) 1
           (mk_hstate 0 0 EmptyString 0 []) []
         = header_loop fuel ("Temp" ++ bytes [xb0; NUL; NUL]) 1
             (mk_hstate 6 0 ("Temp" ++ bytes [xb0] ++ " ") 1 []) [])
  /\ header_loop 8 ("Temp" ++ bytes [xb0; NUL; NUL]) 1
       (mk_hstate 0 0 EmptyString 0 []) []
     = Returns (mk_hstate 7 1 EmptyString 0 ["Tempdeg"], []).
Proof.
  split; [intros ft; apply replace_flat_map|].
  split; [intros ft; apply rstrip_suffix|].
  split; [intros ft t; apply rstrip_no_trailing|].
  split; [|repeat split; try (vm_compute; reflexivity); intros fuel; reflexivity].
  intros [fp fn ft nz header] Hnz Hne. cbn [h_nz h_ft h_header] in *.
  unfold header_step. apply Nat.ltb_lt in Hnz. rewrite Hnz. cbn [Ascii.eqb NUL Bool.eqb andb].
  destruct (finalize ft) as [|c s]; [contradiction|]. reflexivity.
Qed.

Lemma degree_sign_rendering_witness :
  h_header (header_step NUL (mk_hstate 6 0 ("Temp" ++ bytes [xb0] ++ " ") 1 []))
  = ["Tempdeg"].
Proof.
  destruct degree_sign_rendering as [_ [_ [_ [H _]]]].
  apply (H (mk_hstate 6 0 ("Temp" ++ bytes [xb0] ++ " ") 1 []));
    [simpl; lia | vm_compute; discriminate].
Defined.

Section Lookahead.

Variable cbf : string.

(** A completed data line leaves the cursor just behind a zero byte. *)
Lemma read_dataline_position (num_fields fuel : nat) (st st' : lstate)
  (errors errors' : list string) :
read_dataline fuel cbf num_fields st errors = Returns (st', errors') ->
(l_fn st < num_fields \/ exists p, l_fp st = S p /\ get p cbf = Some NUL) ->
l_fn st' = num_fields ->
exists p, l_fp st' = S p /\ get p cbf = Some NUL.
Proof.
revert st; induction fuel as [|fuel IH]; intros st Hrun Hpos Hfn;
  [discriminate|].
simpl in Hrun.
destruct (l_fn st <? num_fields) eqn:Hlt.
- destruct (String.length cbf <=? l_fp st).
  + injection Hrun as <- <-. apply Nat.ltb_lt in Hlt. lia.
  + destruct (index cbf (l_fp st)) as [c| |] eqn:Hc; try discriminate.
    simpl in Hrun. apply index_Returns in Hc.
    destruct (Ascii.eqb c NUL) eqn:Hz.
    * apply Ascii.eqb_eq in Hz. subst c.
      apply (IH _ Hrun); [|exact Hfn]. right. exists (l_fp st).
      simpl. split; [lia|exact Hc].
    * apply (IH _ Hrun); [|exact Hfn]. left. simpl.
      apply Nat.ltb_lt. exact Hlt.
- injection Hrun as <- <-. apply Nat.ltb_ge in Hlt.
  destruct Hpos as [Hpos|Hpos]; [lia|exact Hpos].
Qed.

(** The mark test succeeds exactly on the bytes AA 55 33 11. *)
Lemma eof_mark_true (fp : nat) :
eof_mark cbf fp = Returns true
<-> (get (fp + 4) cbf = Some xaa /\ get (fp + 5) cbf = Some x55
     /\ get (fp + 6) cbf = Some x33 /\ get (fp + 7) cbf = Some x11).
Proof.
unfold eof_mark, index. split.
- destruct (get (fp + 4) cbf) as [c4|]; [|discriminate]. cbn [bind].
  destruct (Ascii.eqb c4 xaa) eqn:E4; [|discriminate]. cbn [negb].
  destruct (get (fp + 5) cbf) as [c5|]; [|discriminate]. cbn [bind].
  destruct (Ascii.eqb c5 x55) eqn:E5; [|discriminate]. cbn [negb].
  destruct (get (fp + 6) cbf) as [c6|]; [|discriminate]. cbn [bind].
  destruct (Ascii.eqb c6 x33) eqn:E6; [|discriminate]. cbn [negb].
  destruct (get (fp + 7) cbf) as [c7|]; [|discriminate]. cbn [bind].
  intros H. injection H as E7.
  apply Ascii.eqb_eq in E4, E5, E6, E7. subst. auto.
- intros [-> [-> [-> ->]]]. reflexivity.
Qed.

(** With the four bytes in the buffer the mark test gives an answer. *)
Lemma eof_mark_decided (fp : nat) :
fp + 7 < String.length cbf ->
exists b, eof_mark cbf fp = Returns b.
Proof.
intros H. unfold eof_mark.
destruct (index_in_bounds cbf (fp + 4)) as [c4 ->]; [lia|]. cbn [bind].
destruct (negb (Ascii.eqb c4 xaa)); [eauto|].
destruct (index_in_bounds cbf (fp + 5)) as [c5 ->]; [lia|]. cbn [bind].
destruct (negb (Ascii.eqb c5 x55)); [eauto|].
destruct (index_in_bounds cbf (fp + 6)) as [c6 ->]; [lia|]. cbn [bind].
destruct (negb (Ascii.eqb c6 x33)); [eauto|].
destruct (index_in_bounds cbf (fp + 7)) as [c7 ->]; [lia|]. cbn [bind].
eauto.
Qed.

(** Behind a found mark the four bytes of the count are in the buffer. *)
Lemma trailer_count_defined (fp : nat) :
eof_mark cbf fp = Returns true ->
exists c0 c1 c2 c3,
  get fp cbf = Some c0 /\ get (fp + 1) cbf = Some c1
  /\ get (fp + 2) cbf = Some c2 /\ get (fp + 3) cbf = Some c3
  /\ trailer_count cbf fp = Returns (le32 c0 c1 c2 c3).
Proof.
intros H. apply eof_mark_true in H. destruct H as [H4 _].
apply get_Some_lt in H4. unfold trailer_count.
destruct (index_in_bounds cbf (fp + 0)) as [c0 E0]; [lia|].
destruct (index_in_bounds cbf (fp + 1)) as [c1 E1]; [lia|].
destruct (index_in_bounds cbf (fp + 2)) as [c2 E2]; [lia|].
destruct (index_in_bounds cbf (fp + 3)) as [c3 E3]; [lia|].
rewrite E0, E1, E2, E3. cbn [bind].
apply index_Returns in E0, E1, E2, E3. rewrite Nat.add_0_r in E0.
exists c0, c1, c2, c3. auto 6.
Qed.

End Lookahead.

(** C9.  In the field table a zero byte that is the first of its field adds
    one to the zero counter and appends one space to the accumulator if the
    accumulator is not empty; so RPM 00 rpm 00 is recorded as "RPM rpm".  A
    zero byte that ends a field whose finalized text is empty records nothing
    and leaves the field counter as it was, so the loop goes on until
    [num_fields] non-empty names are recorded. *)
Theorem first_zero_joins_name_and_unit :
  (forall st, h_nz st = 0 ->
              header_step NUL st
              = mk_hstate (h_fp st + 1) (h_fn st)
                  (if 0 <? String.length (h_ft st)
                   then (h_ft st ++ " ")%string else h_ft st)
                  1 (h_header st))
  /\ (forall st, 0 < h_nz st -> finalize (h_ft st) = EmptyString ->
                 header_step NUL st
                 = mk_hstate (h_fp st + 1) (h_fn st) EmptyString 0 (h_header st))
  /\ (forall fuel cbf num_fields st errors c,
         h_fn st < num_fields -> get (h_fp st) cbf = Some c ->
         header_loop (S fuel) cbf num_fields st errors
         = header_loop fuel cbf num_fields (header_step c st) errors)
  /\ header_loop 9 ("RPM" ++ bytes [NUL] ++ "rpm" ++ bytes [NUL]) 1
       (mk_hstate 0 0 EmptyString 0 []) []
     = Returns (mk_hstate 8 1 EmptyString 0 ["RPM rpm"], [])
  /\ header_loop 6 (bytes [NUL; NUL] ++ "X" ++ bytes [NUL; NUL]) 1
       (mk_hstate 0 0 EmptyString 0 []) []
     = Returns (mk_hstate 5 1 EmptyString 0 ["X"], []).
Proof.
  split; [|split; [|split; [|split; vm_compute; reflexivity]]].
  - intros [fp fn ft nz header] Hnz. cbn [h_nz h_fp h_fn h_ft h_header] in *.
    subst nz. unfold header_step.
    change (Ascii.eqb NUL NUL && (0 <? 0)) with false.
    change (Ascii.eqb NUL x06) with false.
    change (negb (Ascii.eqb NUL NUL)) with false. cbv iota.
    destruct (0 <? String.length ft); reflexivity.
  - intros [fp fn ft nz header] Hnz Hfin. cbn [h_nz h_fp h_fn h_ft h_header] in *.
    unfold header_step. apply Nat.ltb_lt in Hnz. rewrite Hnz, Hfin. reflexivity.
  - intros fuel cbf num_fields st errors c Hfn Hc. cbn [header_loop].
    apply Nat.ltb_lt in Hfn. rewrite Hfn.
    pose proof (get_Some_lt _ _ _ Hc) as Hlt.
    apply Nat.leb_gt in Hlt. rewrite Hlt.
    apply index_Returns in Hc. rewrite Hc. reflexivity.
Qed.

Lemma first_zero_joins_name_and_unit_witness :
  header_step NUL (mk_hstate 3 0 "RPM" 0 []) = mk_hstate 4 0 "RPM " 1 []
  /\ header_step NUL (mk_hstate 1 0 EmptyString 1 []) = mk_hstate 2 0 EmptyString 0 []
  /\ header_loop 2 "X" 1 (mk_hstate 0 0 EmptyString 0 []) []
     = header_loop 1 "X" 1 (header_step "X" (mk_hstate 0 0 EmptyString 0 [])) [].
Proof.
  destruct first_zero_joins_name_and_unit as [H1 [H2 [H3 _]]].
  split; [|split].
  - apply (H1 (mk_hstate 3 0 "RPM" 0 [])). reflexivity.
  - apply (H2 (mk_hstate 1 0 EmptyString 1 [])); [simpl; lia | reflexivity].
  - apply (H3 1 "X"%string 1 (mk_hstate 0 0 EmptyString 0 []) [] "X"%char);
      [simpl; lia | reflexivity].
Defined.

(** ** Instances of the general statements *)

Lemma records_match_header_arity_witness :
  List.length ["5"%string] = List.length ["X"%string]
  /\ data_loop 2 (one_column ++ "5") 1 (data_start 19)
     = Returns (mk_dstate 20 [] 0 (-1) [message (UnexpectedEndOfFile data)]).
Proof.
  destruct records_match_header_arity as [H1 H2]. split.
  - apply (H1 4 scenario_documented ["A"; "B"; "C"]%string ["X"%string]
              [["5"%string]] [] ltac:(vm_compute; reflexivity) 0).
    reflexivity.
  - destruct (H2 0 (one_column ++ "5")%string 1 (data_start 19)
                 (mk_lstate 20 0 "5" [])
                 [message (UnexpectedEndOfFile data)]) as [_ [_ H]];
      [apply Nat.ltb_lt; vm_compute; reflexivity
      | vm_compute; reflexivity | simpl; lia | exact H].
Defined.

Lemma error_list_at_most_two_witness :
  parse_cbf 4 (one_column ++ "5")
  = Returns (["A"; "B"; "C"], ["X"], [],
             [message (UnexpectedEndOfFile data);
              message (RecordCountMismatch (-1) 0)])
  /\ List.length [message (UnexpectedEndOfFile data);
                  message (RecordCountMismatch (-1) 0)] <= 2.
Proof.
  assert (H : parse_cbf 4 (one_column ++ "5")
              = Returns (["A"; "B"; "C"], ["X"], [],
                         [message (UnexpectedEndOfFile data);
                          message (RecordCountMismatch (-1) 0)]))
    by (vm_compute; reflexivity).
  split; [exact H|].
  destruct (error_list_at_most_two _ _ _ _ _ _ H) as [_ [Hlen _]]. exact Hlen.
Defined.

(** * Further properties of the decoder *)

Section Termination.

Variable cbf : string.

Lemma eof_mark_not_OutOfFuel (fp : nat) : eof_mark cbf fp <> OutOfFuel.
Proof.
  unfold eof_mark, index.
  destruct (get (fp + 4) cbf) as [c4|]; [|discriminate]. cbn [bind].
  destruct (negb (Ascii.eqb c4 xaa)); [discriminate|].
  destruct (get (fp + 5) cbf) as [c5|]; [|discriminate]. cbn [bind].
  destruct (negb (Ascii.eqb c5 x55)); [discriminate|].
  destruct (get (fp + 6) cbf) as [c6|]; [|discriminate]. cbn [bind].
  destruct (negb (Ascii.eqb c6 x33)); [discriminate|].
  destruct (get (fp + 7) cbf) as [c7|]; discriminate.
Qed.

Lemma trailer_count_not_OutOfFuel (fp : nat) : trailer_count cbf fp <> OutOfFuel.
Proof.
  unfold trailer_count, index.
  destruct (get (fp + 0) cbf); [|discriminate]. cbn [bind].
  destruct (get (fp + 1) cbf); [|discriminate]. cbn [bind].
  destruct (get (fp + 2) cbf); [|discriminate]. cbn [bind].
  destruct (get (fp + 3) cbf); discriminate.
Qed.

Lemma read_heading_terminates (fuel fp : nat) (ft : string) :
  String.length cbf - fp < fuel ->
  read_heading fuel cbf fp ft <> OutOfFuel.
Proof.
  revert fp ft; induction fuel as [|fuel IH]; intros fp ft Hfuel; [lia|].
  simpl. destruct (index cbf fp) as [c| |] eqn:Hc; simpl; try discriminate.
  - destruct (Ascii.eqb c NUL); [discriminate|].
    destruct (String.length cbf <=? fp + 1) eqn:Hend; [discriminate|].
    apply Nat.leb_gt in Hend. apply IH. lia.
  - exfalso. exact (index_not_OutOfFuel _ _ Hc).
Qed.

(** Every pass of the header loop moves the cursor forward. *)
Lemma header_step_advances (c : ascii) (st : hstate) :
  h_fp st < h_fp (header_step c st).
Proof.
  destruct st as [fp fn ft nz header]. unfold header_step.
  destruct (Ascii.eqb c NUL && (0 <? nz)).
  - destruct (0 <? String.length (finalize ft)); simpl; lia.
  - destruct (Ascii.eqb c x06); simpl; [lia|].
    destruct (negb (Ascii.eqb c NUL)).
    + destruct (31 <? ord c); simpl; lia.
    + destruct (0 <? String.length ft); simpl; lia.
Qed.

Lemma header_loop_terminates (fuel num_fields : nat) (st : hstate)
    (errors : list string) :
  String.length cbf - h_fp st < fuel ->
  header_loop fuel cbf num_fields st errors <> OutOfFuel.
Proof.
  revert st; induction fuel as [|fuel IH]; intros st Hfuel; [lia|].
  simpl. destruct (h_fn st <? num_fields); [|discriminate].
  destruct (String.length cbf <=? h_fp st) eqn:Hend; [discriminate|].
  apply Nat.leb_gt in Hend.
  destruct (index cbf (h_fp st)) as [c| |] eqn:Hc; simpl; try discriminate.
  - apply IH. pose proof (header_step_advances c st). lia.
  - exfalso. exact (index_not_OutOfFuel _ _ Hc).
Qed.

Lemma read_dataline_terminates (fuel num_fields : nat) (st : lstate)
    (errors : list string) :
  String.length cbf - l_fp st < fuel ->
  read_dataline fuel cbf num_fields st errors <> OutOfFuel.
Proof.
  revert st; induction fuel as [|fuel IH]; intros st Hfuel; [lia|].
  simpl. destruct (l_fn st <? num_fields); [|discriminate].
  destruct (String.length cbf <=? l_fp st) eqn:Hend; [discriminate|].
  apply Nat.leb_gt in Hend.
  destruct (index cbf (l_fp st)) as [c| |] eqn:Hc; simpl; try discriminate.
  - destruct (Ascii.eqb c NUL); apply IH; simpl; lia.
  - exfalso. exact (index_not_OutOfFuel _ _ Hc).
Qed.

(** The inner record loop never moves the cursor back, and moves it forward
    when it has a value to read and a byte to read it from. *)
Lemma read_dataline_advances (fuel num_fields : nat) (st st' : lstate)
    (errors errors' : list string) :
  read_dataline fuel cbf num_fields st errors = Returns (st', errors') ->
  l_fp st <= l_fp st'
  /\ (l_fn st < num_fields -> l_fp st < String.length cbf -> l_fp st < l_fp st').
Proof.
  revert st; induction fuel as [|fuel IH]; intros st Hrun; [discriminate|].
  simpl in Hrun. destruct (l_fn st <? num_fields) eqn:Hlt.
  - destruct (String.length cbf <=? l_fp st) eqn:Hend.
    + injection Hrun as <- <-. apply Nat.leb_le in Hend. split; lia.
    + destruct (index cbf (l_fp st)) as [c| |]; try discriminate.
      simpl in Hrun.
      destruct (Ascii.eqb c NUL); apply IH in Hrun; simpl in Hrun; split; lia.
  - injection Hrun as <- <-. apply Nat.ltb_ge in Hlt. split; lia.
Qed.

Lemma data_loop_terminates (fuel num_fields : nat) (st : dstate) :
  0 < num_fields ->
  String.length cbf - d_fp st < fuel ->
  data_loop fuel cbf num_fields st <> OutOfFuel.
Proof.
  intros Hnf. revert st; induction fuel as [|fuel IH]; intros st Hfuel; [lia|].
  destruct st as [fp records rr er errors]. cbn [data_loop d_fp] in *.
  destruct (fp <? String.length cbf) eqn:Hfp; [|discriminate].
  apply Nat.ltb_lt in Hfp.
  destruct (read_dataline (S fuel) cbf num_fields
              (mk_lstate fp 0 EmptyString []) errors) as [[l errs]| |] eqn:Hline;
    cbn [bind]; try discriminate.
  - apply read_dataline_advances in Hline. cbn [l_fp l_fn] in Hline.
    destruct Hline as [_ Hadv]. specialize (Hadv Hnf Hfp).
    destruct (l_fn l =? num_fields).
    + destruct (eof_mark cbf (l_fp l)) as [[|]| |] eqn:Hmark; cbn [bind];
        try discriminate.
      * destruct (trailer_count cbf (l_fp l)) eqn:Hcount; cbn [bind];
          try discriminate.
        exfalso. exact (trailer_count_not_OutOfFuel _ Hcount).
      * apply IH. cbn [d_fp]. lia.
      * exfalso. exact (eof_mark_not_OutOfFuel _ Hmark).
    + apply IH. cbn [d_fp]. lia.
  - exfalso. revert Hline. apply read_dataline_terminates. cbn [l_fp]. lia.
Qed.

Lemma read_prologue_terminates (fuel : nat) :
  String.length cbf < fuel -> read_prologue fuel cbf <> OutOfFuel.
Proof.
  intros Hfuel. unfold read_prologue.
  destruct (read_heading fuel cbf 0 EmptyString) as [[ft1 fp1|]| |] eqn:H1;
    cbn [bind]; try discriminate.
  2:{ exfalso. revert H1. apply read_heading_terminates. lia. }
  destruct (read_heading fuel cbf (fp1 + 1) EmptyString) as [[ft2 fp2|]| |] eqn:H2;
    cbn [bind]; try discriminate.
  2:{ exfalso. revert H2. apply read_heading_terminates. lia. }
  destruct (read_heading fuel cbf (fp2 + 9) EmptyString) as [[ft3 fp3|]| |] eqn:H3;
    cbn [bind]; try discriminate.
  2:{ exfalso. revert H3. apply read_heading_terminates. lia. }
  destruct (index cbf (fp3 + 1)) as [c0| |] eqn:E0; cbn [bind]; try discriminate.
  2:{ exfalso. exact (index_not_OutOfFuel _ _ E0). }
  destruct (index cbf (fp3 + 1 + 1)) as [c1| |] eqn:E1; cbn [bind]; try discriminate.
  2:{ exfalso. exact (index_not_OutOfFuel _ _ E1). }
  destruct (header_loop fuel cbf (field_count c0 c1)
              (mk_hstate (fp3 + 1 + 2) 0 EmptyString 0 []) [])
    as [[h errs]| |] eqn:Hloop; cbn [bind]; try discriminate.
  - destruct (0 <? List.length errs); discriminate.
  - exfalso. revert Hloop. apply header_loop_terminates. cbn [h_fp]. lia.
Qed.

End Termination.

(** X1.  With more fuel than the buffer has bytes the decoder comes to an
    end, by returning or by raising, unless the file announces no column:
    only a field count of zero can keep the source looping. *)
Theorem decoder_terminates (fuel : nat) (cbf : string) :
  String.length cbf < fuel ->
  parse_cbf fuel cbf <> OutOfFuel
  \/ exists headings header fp,
       read_prologue fuel cbf = Returns (Table headings header 0 fp).
Proof.
  intros Hfuel. unfold parse_cbf.
  destruct (read_prologue fuel cbf) as [[r|hs hd nf fp]| |] eqn:Hp; cbn [bind].
  - left. discriminate.
  - destruct nf as [|nf]; [right; eauto|]. left.
    destruct (data_loop fuel cbf (S nf) (data_start fp)) eqn:Hd; cbn [bind];
      try discriminate.
    exfalso. revert Hd. apply data_loop_terminates; [lia|].
    unfold data_start. cbn [d_fp]. lia.
  - left. discriminate.
  - exfalso. exact (read_prologue_terminates _ _ Hfuel Hp).
Qed.

Lemma decoder_terminates_witness :
  String.length cut_in_second_record < 23
  /\ (parse_cbf 23 cut_in_second_record <> OutOfFuel
      \/ exists headings header fp,
           read_prologue 23 cut_in_second_record
           = Returns (Table headings header 0 fp)).
Proof.
  assert (H : String.length cut_in_second_record < 23)
    by (apply Nat.ltb_lt; vm_compute; reflexivity).
  split; [exact H | exact (decoder_terminates 23 cut_in_second_record H)].
Defined.

(** X2.  If the field count is zero and the record loop is entered on a byte
    of the buffer where the mark test fails, the decoder never returns:
    every pass appends an empty record and leaves the cursor in place. *)
Theorem zero_fields_loop_forever (fuel0 : nat) (cbf : string)
    headings header (fp : nat) :
  read_prologue fuel0 cbf = Returns (Table headings header 0 fp) ->
  fp < String.length cbf ->
  eof_mark cbf fp = Returns false ->
  forall fuel, parse_cbf fuel cbf = OutOfFuel.
Proof.
  intros Hp Hfp Hmark fuel.
  assert (Hloop : read_prologue fuel cbf = Returns (Table headings header 0 fp) ->
                  parse_cbf fuel cbf = OutOfFuel).
  { intros H. unfold parse_cbf. rewrite H. cbn [bind].
    rewrite data_loop_no_column; [reflexivity | exact Hfp | exact Hmark]. }
  destruct (Nat.le_ge_cases fuel0 fuel) as [Hle|Hge].
  - apply Hloop. exact (refines_Returns _ _ _ (read_prologue_fuel _ _ cbf Hle) Hp).
  - destruct (read_prologue_fuel _ _ cbf Hge) as [Hout|Heq].
    + unfold parse_cbf. rewrite Hout. reflexivity.
    + apply Hloop. rewrite Heq. exact Hp.
Qed.

Lemma zero_fields_loop_forever_witness :
  parse_cbf 1000 no_column = OutOfFuel.
Proof.
  apply (zero_fields_loop_forever 4 no_column ["A"; "B"; "C"]%string [] 16);
    [vm_compute; reflexivity | apply Nat.ltb_lt; vm_compute; reflexivity
    | vm_compute; reflexivity].
Defined.

Section Outcomes.

Lemma singleton_inj {A : Type} (a b : A) : [a] = [b] -> a = b.
Proof. intros H. injection H as H. exact H. Qed.

Lemma message_stage_injective (s s' : stage) :
  message (UnexpectedEndOfFile s) = message (UnexpectedEndOfFile s') -> s = s'.
Proof. destruct s, s'; intros H; try reflexivity; discriminate. Qed.

(** The early returns, stage by stage. *)
Lemma read_prologue_early (fuel : nat) (cbf : string) headings header records errors :
  read_prologue fuel cbf = Returns (Early (headings, header, records, errors)) ->
  records = []
  /\ ((errors = [message (UnexpectedEndOfFile heading1)]
       /\ headings = [] /\ header = [])
      \/ (errors = [message (UnexpectedEndOfFile heading2)]
          /\ List.length headings = 1 /\ header = [])
      \/ (errors = [message (UnexpectedEndOfFile heading3)]
          /\ List.length headings = 2 /\ header = [])
      \/ (errors = [message (UnexpectedEndOfFile fieldheader)]
          /\ List.length headings = 3
          /\ exists c0 c1, List.length header < field_count c0 c1)).
Proof.
  unfold read_prologue. intros H.
  destruct (read_heading fuel cbf 0 EmptyString) as [[ft1 fp1|]| |];
    try discriminate; cbn [bind] in H.
  2:{ injection H as <- <- <- <-. auto 6. }
  destruct (read_heading fuel cbf (fp1 + 1) EmptyString) as [[ft2 fp2|]| |];
    try discriminate; cbn [bind] in H.
  2:{ injection H as <- <- <- <-. auto 7. }
  destruct (read_heading fuel cbf (fp2 + 9) EmptyString) as [[ft3 fp3|]| |];
    try discriminate; cbn [bind] in H.
  2:{ injection H as <- <- <- <-. auto 8. }
  destruct (index cbf (fp3 + 1)) as [c0| |]; try discriminate; cbn [bind] in H.
  destruct (index cbf (fp3 + 1 + 1)) as [c1| |]; try discriminate; cbn [bind] in H.
  destruct (header_loop fuel cbf (field_count c0 c1)
              (mk_hstate (fp3 + 1 + 2) 0 EmptyString 0 []) [])
    as [[h errs]| |] eqn:Hloop; try discriminate; cbn [bind] in H.
  apply header_loop_spec in Hloop; [|reflexivity|cbn [h_fn]; lia].
  destruct Hloop as [Hcount [[-> Hfn]|[-> [Hlt _]]]].
  - cbn [List.length Nat.ltb Nat.leb] in H. discriminate.
  - cbn [List.length app Nat.ltb Nat.leb] in H. injection H as <- <- <- <-.
    split; [reflexivity|]. right; right; right.
    split; [reflexivity|]. split; [reflexivity|].
    exists c0, c1. lia.
Qed.

End Outcomes.

(** X4.  A result with an empty error list has three headings and at least
    one record, and was stopped by a trailer that lies inside the buffer and
    whose count is the number of records returned.  In particular a file
    without record is never decoded without error. *)
Theorem error_free_decode (fuel : nat) (cbf : string) headings header records :
  parse_cbf fuel cbf = Returns (headings, header, records, []) ->
  List.length headings = 3
  /\ records <> []
  /\ exists fp,
       fp + 8 <= String.length cbf
       /\ eof_mark cbf fp = Returns true
       /\ trailer_count cbf fp = Returns (Z.of_nat (List.length records)).
Proof.
  intros Hrun. apply parse_cbf_inv in Hrun.
  destruct Hrun as [Hearly|[hs [hd [nf [fp [st [Hp [Hd Hr]]]]]]]].
  - apply read_prologue_spec in Hearly. destruct Hearly as [_ [s [_ Habs]]].
    discriminate.
  - apply read_prologue_spec in Hp. destruct Hp as [_ Hhs].
    apply data_loop_from_start in Hd. destruct Hd as [Hrr [_ Hexit]].
    rewrite (reconcile_errors _ _ _ Hrr) in Hr.
    destruct (Z.of_nat (List.length (d_data st)) =? d_expected_records st)%Z
      eqn:Hcmp.
    + apply Z.eqb_eq in Hcmp. injection Hr as -> -> -> He.
      destruct Hexit as [[_ [Hne [Hm Ht]]]|[[_ [Hx _]]|[_ [Hx _]]]]; try lia.
      split; [exact Hhs|]. split; [exact Hne|].
      exists (d_fp st). rewrite Hcmp. split; [|split; assumption].
      apply eof_mark_true in Hm. destruct Hm as [_ [_ [_ H7]]].
      apply get_Some_lt in H7. lia.
    + injection Hr as _ _ _ He. destruct (d_errors st); discriminate.
Qed.

Lemma error_free_decode_witness :
  List.length ["A"; "B"; "C"]%string = 3
  /\ [["5"%string]] <> []
  /\ exists fp,
       fp + 8 <= String.length scenario_documented
       /\ eof_mark scenario_documented fp = Returns true
       /\ trailer_count scenario_documented fp
          = Returns (Z.of_nat (List.length [["5"%string]])).
Proof.
  apply (error_free_decode 4 scenario_documented _ ["X"%string]).
  vm_compute. reflexivity.
Defined.

(** X9.  When the only error is an end of file, it is an end of file in
    front of the table of data, no record is returned, and the headings and
    the header tell how far the decoder came: no heading for the first
    stage, one for the second, two for the third, and three headings with
    fewer names than announced for the field table. *)
Theorem early_return_shape (fuel : nat) (cbf : string)
    headings header records (s : stage) :
  parse_cbf fuel cbf
  = Returns (headings, header, records, [message (UnexpectedEndOfFile s)]) ->
  records = []
  /\ match s with
     | heading1 => headings = [] /\ header = []
     | heading2 => List.length headings = 1 /\ header = []
     | heading3 => List.length headings = 2 /\ header = []
     | fieldheader => List.length headings = 3 /\ List.length header < 256 * 256
     | data => False
     end.
Proof.
  intros Hrun. apply parse_cbf_inv in Hrun.
  destruct Hrun as [Hearly|[hs [hd [nf [fp [st [Hp [Hd Hr]]]]]]]].
  - apply read_prologue_early in Hearly. destruct Hearly as [-> Hcases].
    split; [reflexivity|].
    destruct Hcases as [[He H]|[[He H]|[[He H]|[He [Hh [c0 [c1 Hlt]]]]]]];
      apply singleton_inj, message_stage_injective in He; subst s;
      try exact H.
    split; [exact Hh|]. unfold field_count in Hlt.
    pose proof (ord_bounded c0). pose proof (ord_bounded c1). lia.
  - exfalso. apply data_loop_from_start in Hd. destruct Hd as [Hrr [_ Hexit]].
    rewrite (reconcile_errors _ _ _ Hrr) in Hr.
    assert (He : (if (Z.of_nat (List.length (d_data st)) =? d_expected_records st)%Z
                  then d_errors st
                  else d_errors st
                       ++ [message (RecordCountMismatch (d_expected_records st)
                                      (Z.of_nat (List.length (d_data st))))])
                 = [message (UnexpectedEndOfFile s)]) by congruence.
    clear Hr.
    destruct (Z.of_nat (List.length (d_data st)) =? d_expected_records st)%Z
      eqn:Hcmp.
    + apply Z.eqb_eq in Hcmp.
      destruct Hexit as [[Hx _]|[[Hx _]|[_ [Hx _]]]]; try lia;
        rewrite Hx in He; discriminate He.
    + destruct Hexit as [[Hx _]|[[Hx _]|[Hx _]]]; rewrite Hx in He;
        cbn [app] in He.
      * apply singleton_inj in He.
        pose proof (proj1 (eof_message_kind s)) as Hk1.
        rewrite <- He in Hk1.
        rewrite (proj1 (mismatch_message_kind _ _)) in Hk1. discriminate.
      * apply singleton_inj in He.
        pose proof (proj1 (eof_message_kind s)) as Hk1.
        rewrite <- He in Hk1.
        rewrite (proj1 (mismatch_message_kind _ _)) in Hk1. discriminate.
      * apply (f_equal (@List.length _)) in He. discriminate.
Qed.

Lemma early_return_shape_witness :
  @nil (list string) = [] /\ (List.length ["A"%string] = 1 /\ @nil string = []).
Proof.
  apply (early_return_shape 4 ("A" ++ bytes [NUL] ++ "B")%string
           ["A"%string] [] [] heading2).
  vm_compute. reflexivity.
Defined.


Section TrailingBytes.

Variables cbf extra : string.

Lemma length_append_le : String.length cbf <= String.length (cbf ++ extra).
Proof. induction cbf as [|c s IH]; simpl; lia. Qed.

Lemma index_append (i : nat) (c : ascii) :
  index cbf i = Returns c -> index (cbf ++ extra) i = Returns c.
Proof.
  intros H. apply index_Returns in H. apply index_Returns.
  rewrite <- append_correct1; [exact H|]. exact (get_Some_lt _ _ _ H).
Qed.

Lemma read_heading_append (fuel fp fp' : nat) (ft ft' : string) :
  read_heading fuel cbf fp ft = Returns (Terminated ft' fp') ->
  read_heading fuel (cbf ++ extra) fp ft = Returns (Terminated ft' fp').
Proof.
  revert fp ft; induction fuel as [|fuel IH]; intros fp ft H; [discriminate|].
  simpl in H |- *.
  destruct (index cbf fp) as [c| |] eqn:Hc; try discriminate.
  rewrite (index_append _ _ Hc). simpl in H |- *.
  destruct (Ascii.eqb c NUL); [exact H|].
  destruct (String.length cbf <=? fp + 1) eqn:Hend; [discriminate|].
  apply Nat.leb_gt in Hend.
  assert (Hend' : (String.length (cbf ++ extra) <=? fp + 1) = false)
    by (apply Nat.leb_gt; pose proof length_append_le; lia).
  rewrite Hend'. apply IH. exact H.
Qed.

Lemma header_loop_append (fuel num_fields : nat) (st st' : hstate)
    (errors : list string) :
  header_loop fuel cbf num_fields st errors = Returns (st', errors) ->
  header_loop fuel (cbf ++ extra) num_fields st errors = Returns (st', errors).
Proof.
  revert st; induction fuel as [|fuel IH]; intros st H; [discriminate|].
  simpl in H |- *. destruct (h_fn st <? num_fields); [|exact H].
  destruct (String.length cbf <=? h_fp st) eqn:Hend.
  - injection H as _ H. apply (f_equal (@List.length _)) in H.
    rewrite length_app in H. simpl in H. lia.
  - apply Nat.leb_gt in Hend.
    assert (Hend' : (String.length (cbf ++ extra) <=? h_fp st) = false)
      by (apply Nat.leb_gt; pose proof length_append_le; lia).
    rewrite Hend'.
    destruct (index cbf (h_fp st)) as [c| |] eqn:Hc; try discriminate.
    rewrite (index_append _ _ Hc). simpl in H |- *. apply IH. exact H.
Qed.

Lemma read_dataline_append (fuel num_fields : nat) (st st' : lstate)
    (errors errors' : list string) :
  read_dataline fuel cbf num_fields st errors = Returns (st', errors') ->
  l_fn st' = num_fields ->
  read_dataline fuel (cbf ++ extra) num_fields st errors = Returns (st', errors').
Proof.
  revert st; induction fuel as [|fuel IH]; intros st H Hfn; [discriminate|].
  simpl in H |- *. destruct (l_fn st <? num_fields) eqn:Hlt; [|exact H].
  destruct (String.length cbf <=? l_fp st) eqn:Hend.
  - injection H as <- _. apply Nat.ltb_lt in Hlt. lia.
  - apply Nat.leb_gt in Hend.
    assert (Hend' : (String.length (cbf ++ extra) <=? l_fp st) = false)
      by (apply Nat.leb_gt; pose proof length_append_le; lia).
    rewrite Hend'.
    destruct (index cbf (l_fp st)) as [c| |] eqn:Hc; try discriminate.
    rewrite (index_append _ _ Hc). simpl in H |- *.
    destruct (Ascii.eqb c NUL); apply IH; assumption.
Qed.

Lemma eof_mark_append (fp : nat) (b : bool) :
  eof_mark cbf fp = Returns b -> eof_mark (cbf ++ extra) fp = Returns b.
Proof.
  unfold eof_mark.
  destruct (index cbf (fp + 4)) as [c4| |] eqn:E4; try discriminate.
  rewrite (index_append _ _ E4). cbn [bind].
  destruct (negb (Ascii.eqb c4 xaa)); [auto|].
  destruct (index cbf (fp + 5)) as [c5| |] eqn:E5; try discriminate.
  rewrite (index_append _ _ E5). cbn [bind].
  destruct (negb (Ascii.eqb c5 x55)); [auto|].
  destruct (index cbf (fp + 6)) as [c6| |] eqn:E6; try discriminate.
  rewrite (index_append _ _ E6). cbn [bind].
  destruct (negb (Ascii.eqb c6 x33)); [auto|].
  destruct (index cbf (fp + 7)) as [c7| |] eqn:E7; try discriminate.
  rewrite (index_append _ _ E7). cbn [bind]. auto.
Qed.

Lemma trailer_count_append (fp : nat) (n : Z) :
  trailer_count cbf fp = Returns n -> trailer_count (cbf ++ extra) fp = Returns n.
Proof.
  unfold trailer_count.
  destruct (index cbf (fp + 0)) as [c0| |] eqn:E0; try discriminate.
  rewrite (index_append _ _ E0). cbn [bind].
  destruct (index cbf (fp + 1)) as [c1| |] eqn:E1; try discriminate.
  rewrite (index_append _ _ E1). cbn [bind].
  destruct (index cbf (fp + 2)) as [c2| |] eqn:E2; try discriminate.
  rewrite (index_append _ _ E2). cbn [bind].
  destruct (index cbf (fp + 3)) as [c3| |] eqn:E3; try discriminate.
  rewrite (index_append _ _ E3). cbn [bind]. auto.
Qed.

(** A run of the record loop that stops at a trailer is not changed by bytes
    added behind the buffer. *)
Lemma data_loop_append (fuel num_fields : nat) (st st' : dstate) :
  data_loop fuel cbf num_fields st = Returns st' ->
  eof_mark cbf (d_fp st') = Returns true ->
  data_loop fuel (cbf ++ extra) num_fields st = Returns st'.
Proof.
  revert st; induction fuel as [|fuel IH]; intros st H Hmark; [discriminate|].
  destruct st as [fp records rr er errors]. cbn [data_loop] in H |- *.
  destruct (fp <? String.length cbf) eqn:Hfp.
  - apply Nat.ltb_lt in Hfp.
    assert (Hfp' : (fp <? String.length (cbf ++ extra)) = true)
      by (apply Nat.ltb_lt; pose proof length_append_le; lia).
    rewrite Hfp'.
    destruct (read_dataline (S fuel) cbf num_fields
                (mk_lstate fp 0 EmptyString []) errors)
      as [[l errs]| |] eqn:Hline; try discriminate.
    cbn [bind] in H.
    destruct (l_fn l =? num_fields) eqn:Hfn.
    + apply Nat.eqb_eq in Hfn.
      rewrite (read_dataline_append _ _ _ _ _ _ Hline Hfn). cbn [bind].
      apply Nat.eqb_eq in Hfn. rewrite Hfn.
      destruct (eof_mark cbf (l_fp l)) as [[|]| |] eqn:Hm; try discriminate;
        rewrite (eof_mark_append _ _ Hm); cbn [bind] in H |- *.
      * destruct (trailer_count cbf (l_fp l)) as [n| |] eqn:Hn; try discriminate.
        rewrite (trailer_count_append _ _ Hn). exact H.
      * apply IH; assumption.
    + exfalso. apply Nat.eqb_neq in Hfn.
      apply read_dataline_spec in Hline; [|reflexivity|cbn [l_fn]; lia].
      destruct Hline as [_ [[_ Heq]|[_ [_ Heof]]]]; [contradiction|].
      destruct fuel as [|fuel]; [discriminate|]. cbn [data_loop] in H.
      apply Nat.ltb_ge in Heof. rewrite Heof in H. injection H as <-.
      cbn [d_fp] in Hmark. apply Nat.ltb_ge in Heof.
      rewrite (eof_mark_out_of_bounds _ _ Heof) in Hmark. discriminate.
  - exfalso. injection H as <-. cbn [d_fp] in Hmark. apply Nat.ltb_ge in Hfp.
    rewrite (eof_mark_out_of_bounds _ _ Hfp) in Hmark. discriminate.
Qed.

Lemma read_prologue_append (fuel : nat) headings header (num_fields fp : nat) :
  read_prologue fuel cbf = Returns (Table headings header num_fields fp) ->
  read_prologue fuel (cbf ++ extra) = Returns (Table headings header num_fields fp).
Proof.
  unfold read_prologue. intros H.
  destruct (read_heading fuel cbf 0 EmptyString) as [[ft1 fp1|]| |] eqn:H1;
    try discriminate.
  rewrite (read_heading_append _ _ _ _ _ H1). cbn [bind] in H |- *.
  destruct (read_heading fuel cbf (fp1 + 1) EmptyString) as [[ft2 fp2|]| |] eqn:H2;
    try discriminate.
  rewrite (read_heading_append _ _ _ _ _ H2). cbn [bind] in H |- *.
  destruct (read_heading fuel cbf (fp2 + 9) EmptyString) as [[ft3 fp3|]| |] eqn:H3;
    try discriminate.
  rewrite (read_heading_append _ _ _ _ _ H3). cbn [bind] in H |- *.
  destruct (index cbf (fp3 + 1)) as [c0| |] eqn:E0; try discriminate.
  rewrite (index_append _ _ E0). cbn [bind] in H |- *.
  destruct (index cbf (fp3 + 1 + 1)) as [c1| |] eqn:E1; try discriminate.
  rewrite (index_append _ _ E1). cbn [bind] in H |- *.
  destruct (header_loop fuel cbf (field_count c0 c1)
              (mk_hstate (fp3 + 1 + 2) 0 EmptyString 0 []) [])
    as [[h errs]| |] eqn:Hloop; try discriminate.
  cbn [bind] in H.
  destruct errs as [|e errs]; [|discriminate].
  rewrite (header_loop_append _ _ _ _ _ Hloop). exact H.
Qed.

End TrailingBytes.

(** X3.  A decoding without error does not depend on what follows the
    trailer: with any bytes added at the end of the buffer (the CR LF that
    some files carry, or anything else) the decoder returns the same
    headings, header and records, again without error. *)
Theorem trailing_bytes_ignored (fuel : nat) (cbf extra : string)
    headings header records :
  parse_cbf fuel cbf = Returns (headings, header, records, []) ->
  parse_cbf fuel (cbf ++ extra) = Returns (headings, header, records, []).
Proof.
  intros Hrun. pose proof Hrun as Hinv. apply parse_cbf_inv in Hinv.
  destruct Hinv as [Hearly|[hs [hd [nf [fp [st [Hp [Hd Hr]]]]]]]].
  - apply read_prologue_spec in Hearly. destruct Hearly as [_ [s [_ Habs]]].
    discriminate.
  - assert (Hmark : eof_mark cbf (d_fp st) = Returns true).
    { pose proof Hd as Hspec. apply data_loop_from_start in Hspec.
      destruct Hspec as [Hrr [_ Hexit]].
      rewrite (reconcile_errors _ _ _ Hrr) in Hr.
      destruct Hexit as [[_ [_ [Hm _]]]|[[He [Hx _]]|[He [Hx _]]]];
        [exact Hm| |]; exfalso;
        destruct (Z.of_nat (List.length (d_data st)) =? d_expected_records st)%Z
          eqn:Hcmp;
        try (apply Z.eqb_eq in Hcmp; lia);
        rewrite He in Hr; discriminate. }
    rewrite Hr.
    apply parse_cbf_through_loop with (num_fields := nf) (fp := fp).
    + apply read_prologue_append. exact Hp.
    + apply data_loop_append; assumption.
Qed.

Lemma trailing_bytes_ignored_witness :
  parse_cbf 4 (scenario_documented ++ bytes ["013"; "010"]%char)
  = Returns (["A"; "B"; "C"], ["X"], [["5"]], []).
Proof.
  apply trailing_bytes_ignored. vm_compute. reflexivity.
Defined.

Section Texts.

Lemma string_app_assoc (s t u : string) : ((s ++ t) ++ u = s ++ (t ++ u))%string.
Proof. induction s as [|c s IH]; simpl; [reflexivity|]. rewrite IH. reflexivity. Qed.

Lemma string_app_nil_r (s : string) : (s ++ EmptyString)%string = s.
Proof. induction s as [|c s IH]; simpl; [reflexivity|]. rewrite IH. reflexivity. Qed.

Lemma chars_app (s t : string) : chars (s ++ t) = chars s ++ chars t.
Proof. apply list_ascii_of_string_app. Qed.

Lemma substring_zero (cbf : string) (s : nat) : substring s 0 cbf = EmptyString.
Proof.
  revert s; induction cbf as [|a r IH]; intros [|s]; simpl; try reflexivity.
  apply IH.
Qed.

(** One more character of a slice. *)
Lemma substring_snoc (cbf : string) (s n : nat) (c : ascii) :
  get (s + n) cbf = Some c ->
  substring s (S n) cbf = (substring s n cbf ++ String c EmptyString)%string.
Proof.
  revert s n; induction cbf as [|a r IH]; intros s n H.
  - destruct (s + n); discriminate.
  - destruct s as [|s].
    + destruct n as [|n]; simpl in H |- *.
      * injection H as ->. destruct r; reflexivity.
      * rewrite (IH 0 n H). reflexivity.
    + simpl in H |- *. apply IH. exact H.
Qed.

Lemma encode_line_snoc (l : list string) (v : string) :
  encode_line (l ++ [v]) = (encode_line l ++ v ++ String NUL EmptyString)%string.
Proof.
  induction l as [|w l IH]; simpl.
  - reflexivity.
  - rewrite IH. rewrite string_app_assoc. reflexivity.
Qed.

Lemma encode_data_snoc (d : list (list string)) (l : list string) :
  encode_data (d ++ [l]) = (encode_data d ++ encode_line l)%string.
Proof.
  induction d as [|k d IH]; simpl.
  - apply string_app_nil_r.
  - rewrite IH. rewrite string_app_assoc. reflexivity.
Qed.

End Texts.

Section DataBytes.

Variable cbf : string.
Variable num_fields : nat.

(** What the inner record loop has read is what it holds: the bytes from
    [start] to the cursor are the text [before], the values of the line so
    far, each with its zero byte, and the value being accumulated; and no
    value holds a zero byte. *)
Lemma read_dataline_bytes (fuel start : nat) (before : string)
    (st st' : lstate) (errors errors' : list string) :
  read_dataline fuel cbf num_fields st errors = Returns (st', errors') ->
  start <= l_fp st ->
  substring start (l_fp st - start) cbf
  = (before ++ encode_line (l_dataline st) ++ l_ft st)%string ->
  Forall (fun c => c <> NUL) (chars (l_ft st)) ->
  Forall (fun v => Forall (fun c => c <> NUL) (chars v)) (l_dataline st) ->
  (l_fn st < num_fields \/ l_ft st = EmptyString) ->
  start <= l_fp st'
  /\ substring start (l_fp st' - start) cbf
     = (before ++ encode_line (l_dataline st') ++ l_ft st')%string
  /\ Forall (fun v => Forall (fun c => c <> NUL) (chars v)) (l_dataline st')
  /\ (l_fn st' = num_fields -> l_ft st' = EmptyString).
Proof.
  revert st; induction fuel as [|fuel IH];
    intros st Hrun Hstart Hbytes Hft Hline Hempty; [discriminate|].
  simpl in Hrun. destruct (l_fn st <? num_fields) eqn:Hlt.
  - apply Nat.ltb_lt in Hlt.
    destruct (String.length cbf <=? l_fp st).
    + injection Hrun as <- <-. repeat split; auto. lia.
    + destruct (index cbf (l_fp st)) as [c| |] eqn:Hc; try discriminate.
      simpl in Hrun. apply index_Returns in Hc.
      assert (Hnext : substring start (l_fp st + 1 - start) cbf
                      = (before ++ encode_line (l_dataline st) ++ l_ft st
                         ++ String c EmptyString)%string).
      { replace (l_fp st + 1 - start) with (S (l_fp st - start)) by lia.
        rewrite (substring_snoc cbf start (l_fp st - start) c).
        - rewrite Hbytes. rewrite !string_app_assoc. reflexivity.
        - replace (start + (l_fp st - start)) with (l_fp st) by lia. exact Hc. }
      destruct (Ascii.eqb c NUL) eqn:Hz.
      * apply Ascii.eqb_eq in Hz. subst c.
        apply (IH _ Hrun); cbn [l_fp l_fn l_ft l_dataline].
        -- lia.
        -- rewrite Hnext, encode_line_snoc, string_app_nil_r. reflexivity.
        -- constructor.
        -- apply Forall_app. split; [exact Hline|]. constructor; [exact Hft|constructor].
        -- right. reflexivity.
      * apply (IH _ Hrun); cbn [l_fp l_fn l_ft l_dataline].
        -- lia.
        -- exact Hnext.
        -- rewrite chars_app. apply Forall_app. split; [exact Hft|].
           constructor; [|constructor]. intros ->. discriminate.
        -- exact Hline.
        -- left. exact Hlt.
  - injection Hrun as <- <-. apply Nat.ltb_ge in Hlt.
    repeat split; auto. intros _. destruct Hempty as [H|H]; [lia|exact H].
Qed.

(** A run of the record loop that is not cut short has consumed exactly the
    bytes of the records it returns. *)
Lemma data_loop_bytes (fuel start : nat) (st st' : dstate) :
  data_loop fuel cbf num_fields st = Returns st' ->
  d_errors st' = d_errors st ->
  start <= d_fp st ->
  substring start (d_fp st - start) cbf = encode_data (d_data st) ->
  Forall (Forall (fun v => Forall (fun c => c <> NUL) (chars v))) (d_data st) ->
  start <= d_fp st'
  /\ substring start (d_fp st' - start) cbf = encode_data (d_data st')
  /\ Forall (Forall (fun v => Forall (fun c => c <> NUL) (chars v))) (d_data st').
Proof.
  revert st; induction fuel as [|fuel IH];
    intros st Hrun Herr Hstart Hbytes Hnul; [discriminate|].
  destruct st as [fp records rr er errors].
  cbn [data_loop d_fp d_data d_errors] in *.
  destruct (fp <? String.length cbf) eqn:Hfp.
  - destruct (read_dataline (S fuel) cbf num_fields
                (mk_lstate fp 0 EmptyString []) errors)
      as [[l errs]| |] eqn:Hline; try discriminate.
    cbn [bind] in Hrun. pose proof Hline as Hspec.
    apply read_dataline_spec in Hspec; [|reflexivity|cbn [l_fn]; lia].
    destruct Hspec as [_ Hcase].
    apply (read_dataline_bytes _ start (encode_data records)) in Hline;
      cbn [l_fp l_fn l_ft l_dataline encode_line fold_right];
      [|exact Hstart|rewrite Hbytes, string_app_nil_r; reflexivity
       |constructor|constructor|right; reflexivity].
    destruct Hline as [Hs [Hb [Hn Hft]]].
    destruct (l_fn l =? num_fields) eqn:Hfn.
    + apply Nat.eqb_eq in Hfn. rewrite (Hft Hfn), string_app_nil_r in Hb.
      destruct Hcase as [[-> _]|[_ [Hlt _]]]; [|lia].
      assert (Hb' : substring start (l_fp l - start) cbf
                    = encode_data (records ++ [l_dataline l]))
        by (rewrite encode_data_snoc; exact Hb).
      assert (Hn' : Forall (Forall (fun v => Forall (fun c => c <> NUL) (chars v)))
                      (records ++ [l_dataline l]))
        by (apply Forall_app; split; [exact Hnul|constructor; [exact Hn|constructor]]).
      destruct (eof_mark cbf (l_fp l)) as [[|]| |]; try discriminate;
        cbn [bind] in Hrun.
      * destruct (trailer_count cbf (l_fp l)) as [n| |]; try discriminate.
        injection Hrun as <-. cbn [d_fp d_data]. auto.
      * apply (IH _ Hrun); cbn [d_fp d_data d_errors]; assumption.
    + exfalso. apply Nat.eqb_neq in Hfn.
      destruct Hcase as [[_ Heq]|[-> [_ Heof]]]; [contradiction|].
      destruct fuel as [|fuel]; [discriminate|]. cbn [data_loop] in Hrun.
      apply Nat.ltb_ge in Heof. rewrite Heof in Hrun. injection Hrun as <-.
      cbn [d_errors] in Herr. apply (f_equal (@List.length _)) in Herr.
      rewrite length_app in Herr. simpl in Herr. lia.
  - injection Hrun as <-. cbn [d_fp d_data]. auto.
Qed.

End DataBytes.

(** X6.  A decoding without error loses nothing of the table of data: the
    bytes of the buffer from the end of the field table to the trailer are
    exactly the values of the returned records, in order, each followed by
    one zero byte; and no returned value holds a zero byte. *)
Theorem records_reencode (fuel : nat) (cbf : string) headings header records :
  parse_cbf fuel cbf = Returns (headings, header, records, []) ->
  exists num_fields fp stop,
    read_prologue fuel cbf = Returns (Table headings header num_fields fp)
    /\ fp <= stop
    /\ substring fp (stop - fp) cbf = encode_data records
    /\ eof_mark cbf stop = Returns true
    /\ Forall (Forall (fun v => Forall (fun c => c <> NUL) (chars v))) records.
Proof.
  intros Hrun. apply parse_cbf_inv in Hrun.
  destruct Hrun as [Hearly|[hs [hd [nf [fp [st [Hp [Hd Hr]]]]]]]].
  - apply read_prologue_spec in Hearly. destruct Hearly as [_ [s [_ Habs]]].
    discriminate.
  - pose proof Hd as Hspec. apply data_loop_from_start in Hspec.
    destruct Hspec as [Hrr [_ Hexit]].
    rewrite (reconcile_errors _ _ _ Hrr) in Hr.
    assert (Hclean : d_errors st = [] /\ eof_mark cbf (d_fp st) = Returns true).
    { destruct (Z.of_nat (List.length (d_data st)) =? d_expected_records st)%Z
        eqn:Hcmp.
      - apply Z.eqb_eq in Hcmp. injection Hr as _ _ _ He.
        destruct Hexit as [[_ [_ [Hm _]]]|[[_ [Hx _]]|[_ [Hx _]]]]; try lia.
        symmetry in He. auto.
      - injection Hr as _ _ _ He. destruct (d_errors st); discriminate. }
    destruct Hclean as [Hclean Hmark].
    assert (Heq : headings = hs /\ header = hd /\ records = d_data st).
    { destruct (Z.of_nat (List.length (d_data st)) =? d_expected_records st)%Z;
        injection Hr as -> -> -> _; auto. }
    destruct Heq as [-> [-> ->]].
    apply (data_loop_bytes _ _ _ fp) in Hd;
      [|exact Hclean|apply le_n
       |cbn [data_start d_fp d_data]; rewrite Nat.sub_diag;
        apply substring_zero
       |constructor].
    destruct Hd as [Hle [Hbytes Hnul]].
    exists nf, fp, (d_fp st). auto 6.
Qed.

Lemma records_reencode_witness :
  exists num_fields fp stop,
    read_prologue 4 scenario_documented
    = Returns (Table ["A"; "B"; "C"] ["X"] num_fields fp)
    /\ fp <= stop
    /\ substring fp (stop - fp) scenario_documented = encode_data [["5"%string]]
    /\ eof_mark scenario_documented stop = Returns true
    /\ Forall (Forall (fun v => Forall (fun c => c <> NUL) (chars v)))
              [["5"%string]].
Proof.
  apply (records_reencode 4 scenario_documented). vm_compute. reflexivity.
Defined.

Section FieldNames.

(** The texts of the replacement are plain. *)
Lemma finalize_plain (ft : string) :
  Forall (fun c => 31 < ord c) (chars ft) ->
  Forall plain (chars (finalize ft)).
Proof.
  intros Hft.
  assert (Hrep : Forall plain (chars (replace xb0 "deg " ft))).
  { unfold chars. rewrite replace_flat_map. apply Forall_flat_map.
    rewrite Forall_forall in Hft |- *. intros c Hin.
    destruct (Ascii.eqb c xb0) eqn:Hc.
    - repeat constructor; try (apply Nat.ltb_lt; reflexivity); discriminate.
    - constructor; [|constructor]. split; [apply Hft; exact Hin|].
      apply Ascii.eqb_neq. exact Hc. }
  destruct (rstrip_suffix (replace xb0 "deg " ft)) as [n Hn].
  fold (finalize ft) in Hn. rewrite Hn, chars_app in Hrep.
  apply Forall_app in Hrep. apply Hrep.
Qed.

Lemma header_step_names (c : ascii) (st : hstate) :
  Forall (fun c => 31 < ord c) (chars (h_ft st)) ->
  Forall well_formed_name (h_header st) ->
  Forall (fun c => 31 < ord c) (chars (h_ft (header_step c st)))
  /\ Forall well_formed_name (h_header (header_step c st)).
Proof.
  destruct st as [fp fn ft nz header]. cbn [h_ft h_header]. intros Hft Hhd.
  unfold header_step.
  destruct (Ascii.eqb c NUL && (0 <? nz)).
  - destruct (0 <? String.length (finalize ft)) eqn:Hlen; cbn [h_ft h_header].
    + split; [constructor|]. apply Forall_app. split; [exact Hhd|].
      constructor; [|constructor]. split; [|split].
      * intros Heq. rewrite Heq in Hlen. discriminate.
      * intros t. apply rstrip_no_trailing.
      * apply finalize_plain. exact Hft.
    + split; [constructor|exact Hhd].
  - destruct (Ascii.eqb c x06); cbn [h_ft h_header]; [auto|].
    destruct (negb (Ascii.eqb c NUL)).
    + destruct (31 <? ord c) eqn:Hc; cbn [h_ft h_header]; [|auto].
      split; [|exact Hhd]. rewrite chars_app. apply Forall_app.
      split; [exact Hft|]. constructor; [|constructor].
      apply Nat.ltb_lt. exact Hc.
    + destruct (0 <? String.length ft); cbn [h_ft h_header]; [|auto].
      split; [|exact Hhd]. rewrite chars_app. apply Forall_app.
      split; [exact Hft|]. constructor; [|constructor].
      apply Nat.ltb_lt. reflexivity.
Qed.

Lemma header_loop_names (fuel : nat) (cbf : string) (num_fields : nat)
    (st st' : hstate) (errors errors' : list string) :
  header_loop fuel cbf num_fields st errors = Returns (st', errors') ->
  Forall (fun c => 31 < ord c) (chars (h_ft st)) ->
  Forall well_formed_name (h_header st) ->
  Forall well_formed_name (h_header st').
Proof.
  revert st; induction fuel as [|fuel IH]; intros st Hrun Hft Hhd; [discriminate|].
  simpl in Hrun. destruct (h_fn st <? num_fields).
  - destruct (String.length cbf <=? h_fp st).
    + injection Hrun as <- _. exact Hhd.
    + destruct (index cbf (h_fp st)) as [c| |]; try discriminate.
      simpl in Hrun. destruct (header_step_names c st Hft Hhd) as [Hft' Hhd'].
      exact (IH _ Hrun Hft' Hhd').
  - injection Hrun as <- _. exact Hhd.
Qed.

Lemma read_prologue_names (fuel : nat) (cbf : string) (p : prologue) :
  read_prologue fuel cbf = Returns p ->
  Forall well_formed_name
    match p with
    | Early (_, header, _, _) => header
    | Table _ header _ _ => header
    end.
Proof.
  unfold read_prologue. intros H.
  destruct (read_heading fuel cbf 0 EmptyString) as [[ft1 fp1|]| |];
    try discriminate; cbn [bind] in H.
  2:{ injection H as <-. constructor. }
  destruct (read_heading fuel cbf (fp1 + 1) EmptyString) as [[ft2 fp2|]| |];
    try discriminate; cbn [bind] in H.
  2:{ injection H as <-. constructor. }
  destruct (read_heading fuel cbf (fp2 + 9) EmptyString) as [[ft3 fp3|]| |];
    try discriminate; cbn [bind] in H.
  2:{ injection H as <-. constructor. }
  destruct (index cbf (fp3 + 1)) as [c0| |]; try discriminate; cbn [bind] in H.
  destruct (index cbf (fp3 + 1 + 1)) as [c1| |]; try discriminate; cbn [bind] in H.
  destruct (header_loop fuel cbf (field_count c0 c1)
              (mk_hstate (fp3 + 1 + 2) 0 EmptyString 0 []) [])
    as [[h errs]| |] eqn:Hloop; try discriminate; cbn [bind] in H.
  apply header_loop_names in Hloop; [|constructor|constructor].
  destruct (0 <? List.length errs); injection H as <-; exact Hloop.
Qed.

End FieldNames.

(** X5.  Every column name of a returned result, also of a partial one, is
    not empty, does not end with a space, and is made of characters above 31
    other than the byte 0xB0: control bytes are dropped and the degree sign
    is spelled out. *)
Theorem field_names_well_formed (fuel : nat) (cbf : string)
    headings header records errors :
  parse_cbf fuel cbf = Returns (headings, header, records, errors) ->
  forall name, In name header ->
    name <> EmptyString
    /\ (forall t, name <> (t ++ " ")%string)
    /\ Forall (fun c => 31 < ord c /\ c <> xb0) (chars name).
Proof.
  intros Hrun name Hin. apply parse_cbf_inv in Hrun.
  assert (Hall : Forall well_formed_name header).
  { destruct Hrun as [Hearly|[hs [hd [nf [fp [st [Hp [Hd Hr]]]]]]]].
    - apply read_prologue_names in Hearly. exact Hearly.
    - apply read_prologue_names in Hp. unfold reconcile in Hr.
      injection Hr as _ -> _ _. exact Hp. }
  rewrite Forall_forall in Hall. exact (Hall name Hin).
Qed.

Lemma field_names_well_formed_witness :
  "X"%string <> EmptyString
  /\ (forall t, "X"%string <> (t ++ " ")%string)
  /\ Forall (fun c => 31 < ord c /\ c <> xb0) (chars "X").
Proof.
  apply (field_names_well_formed 4 scenario_documented
           ["A"; "B"; "C"]%string ["X"%string] [["5"%string]] []);
    [vm_compute; reflexivity | left; reflexivity].
Defined.

Section Headings.

(** A heading scan returns the bytes it has passed, and stops on a zero
    byte. *)
Lemma read_heading_slice (fuel : nat) (cbf : string) (start fp fp' : nat)
    (ft ft' : string) :
  read_heading fuel cbf fp ft = Returns (Terminated ft' fp') ->
  start <= fp ->
  substring start (fp - start) cbf = ft ->
  Forall (fun c => c <> NUL) (chars ft) ->
  start <= fp'
  /\ substring start (fp' - start) cbf = ft'
  /\ get fp' cbf = Some NUL
  /\ Forall (fun c => c <> NUL) (chars ft').
Proof.
  revert fp ft; induction fuel as [|fuel IH]; intros fp ft H Hstart Hsub Hnul;
    [discriminate|].
  simpl in H. destruct (index cbf fp) as [c| |] eqn:Hc; try discriminate.
  simpl in H. apply index_Returns in Hc.
  destruct (Ascii.eqb c NUL) eqn:Hz.
  - apply Ascii.eqb_eq in Hz. subst c. injection H as <- <-. auto.
  - destruct (String.length cbf <=? fp + 1); [discriminate|].
    apply (IH _ _ H); [lia| |].
    + replace (fp + 1 - start) with (S (fp - start)) by lia.
      rewrite (substring_snoc cbf start (fp - start) c); [rewrite Hsub; reflexivity|].
      replace (start + (fp - start)) with fp by lia. exact Hc.
    + rewrite chars_app. apply Forall_app. split; [exact Hnul|].
      constructor; [|constructor]. apply Ascii.eqb_neq. exact Hz.
Qed.

Lemma read_prologue_headings (fuel : nat) (cbf : string) (p : prologue) :
  read_prologue fuel cbf = Returns p ->
  match (match p with
         | Early (headings, _, _, _) => headings
         | Table headings _ _ _ => headings
         end) with
  | [h1; h2; h3] =>
      exists p1 p2 p3,
        read_heading fuel cbf 0 EmptyString = Returns (Terminated h1 p1)
        /\ read_heading fuel cbf (p1 + 1) EmptyString = Returns (Terminated h2 p2)
        /\ read_heading fuel cbf (p2 + 9) EmptyString = Returns (Terminated h3 p3)
  | _ => True
  end.
Proof.
  unfold read_prologue. intros H.
  destruct (read_heading fuel cbf 0 EmptyString) as [[ft1 fp1|]| |] eqn:H1;
    try discriminate; cbn [bind] in H.
  2:{ injection H as <-. exact I. }
  destruct (read_heading fuel cbf (fp1 + 1) EmptyString) as [[ft2 fp2|]| |] eqn:H2;
    try discriminate; cbn [bind] in H.
  2:{ injection H as <-. exact I. }
  destruct (read_heading fuel cbf (fp2 + 9) EmptyString) as [[ft3 fp3|]| |] eqn:H3;
    try discriminate; cbn [bind] in H.
  2:{ injection H as <-. exact I. }
  destruct (index cbf (fp3 + 1)) as [c0| |]; try discriminate; cbn [bind] in H.
  destruct (index cbf (fp3 + 1 + 1)) as [c1| |]; try discriminate; cbn [bind] in H.
  destruct (header_loop fuel cbf (field_count c0 c1)
              (mk_hstate (fp3 + 1 + 2) 0 EmptyString 0 []) [])
    as [[h errs]| |]; try discriminate; cbn [bind] in H.
  destruct (0 <? List.length errs); injection H as <-; cbn [app];
    exists fp1, fp2, fp3; repeat split; assumption.
Qed.

End Headings.

(** X7.  When three headings are returned they are slices of the buffer:
    the first runs from the start to the first zero byte, the second from
    the byte behind that zero byte to the next zero byte, and the third
    starts nine bytes behind the terminator of the second, whatever the
    eight bytes in between are, and runs to the next zero byte.  No heading
    holds a zero byte. *)
Theorem headings_are_slices (fuel : nat) (cbf : string) (h1 h2 h3 : string)
    header records errors :
  parse_cbf fuel cbf = Returns ([h1; h2; h3], header, records, errors) ->
  exists p1 p2 p3,
    h1 = substring 0 p1 cbf /\ get p1 cbf = Some NUL
    /\ p1 + 1 <= p2
    /\ h2 = substring (p1 + 1) (p2 - (p1 + 1)) cbf /\ get p2 cbf = Some NUL
    /\ p2 + 9 <= p3
    /\ h3 = substring (p2 + 9) (p3 - (p2 + 9)) cbf /\ get p3 cbf = Some NUL
    /\ Forall (fun h => Forall (fun c => c <> NUL) (chars h)) [h1; h2; h3].
Proof.
  intros Hrun. apply parse_cbf_inv in Hrun.
  assert (Hscans : exists p1 p2 p3,
             read_heading fuel cbf 0 EmptyString = Returns (Terminated h1 p1)
             /\ read_heading fuel cbf (p1 + 1) EmptyString
                = Returns (Terminated h2 p2)
             /\ read_heading fuel cbf (p2 + 9) EmptyString
                = Returns (Terminated h3 p3)).
  { destruct Hrun as [Hearly|[hs [hd [nf [fp [st [Hp [Hd Hr]]]]]]]].
    - apply read_prologue_headings in Hearly. exact Hearly.
    - apply read_prologue_headings in Hp. unfold reconcile in Hr.
      injection Hr as <- _ _ _. exact Hp. }
  destruct Hscans as [p1 [p2 [p3 [H1 [H2 H3]]]]].
  apply (read_heading_slice _ _ 0) in H1;
    [|lia|apply substring_zero|constructor].
  apply (read_heading_slice _ _ (p1 + 1)) in H2;
    [|lia|rewrite Nat.sub_diag; apply substring_zero|constructor].
  apply (read_heading_slice _ _ (p2 + 9)) in H3;
    [|lia|rewrite Nat.sub_diag; apply substring_zero|constructor].
  destruct H1 as [_ [S1 [G1 N1]]]. destruct H2 as [L2 [S2 [G2 N2]]].
  destruct H3 as [L3 [S3 [G3 N3]]]. rewrite Nat.sub_0_r in S1.
  exists p1, p2, p3. repeat split; auto.
Qed.

Lemma headings_are_slices_witness :
  exists p1 p2 p3,
    "A"%string = substring 0 p1 scenario_documented
    /\ get p1 scenario_documented = Some NUL
    /\ p1 + 1 <= p2
    /\ "B"%string = substring (p1 + 1) (p2 - (p1 + 1)) scenario_documented
    /\ get p2 scenario_documented = Some NUL
    /\ p2 + 9 <= p3
    /\ "C"%string = substring (p2 + 9) (p3 - (p2 + 9)) scenario_documented
    /\ get p3 scenario_documented = Some NUL
    /\ Forall (fun h => Forall (fun c => c <> NUL) (chars h))
              ["A"; "B"; "C"]%string.
Proof.
  apply (headings_are_slices 4 scenario_documented "A" "B" "C"
           ["X"%string] [["5"%string]] []).
  vm_compute. reflexivity.
Defined.

(** * Rendering *)

Section Quoting.

Lemma count_char_app (ch : ascii) (s t : string) :
  count_char ch (s ++ t) = count_char ch s + count_char ch t.
Proof. induction s as [|c s IH]; simpl; [reflexivity|]. rewrite IH. lia. Qed.

(** [find] answers from 0 upwards exactly when the character occurs. *)
Lemma find_found (ch : ascii) (s : string) :
  (find ch s >=? 0)%Z = negb (count_char ch s =? 0).
Proof.
  induction s as [|c s IH]; simpl; [reflexivity|].
  destruct (Ascii.eqb c ch); [reflexivity|]. simpl.
  destruct (Z.ltb_spec (find ch s) 0) as [Hneg|Hpos].
  - rewrite <- IH. rewrite !Z.geb_leb.
    transitivity false; [reflexivity | symmetry; apply Z.leb_gt; lia].
  - rewrite <- IH. rewrite !Z.geb_leb.
    transitivity true; [apply Z.leb_le; lia | symmetry; apply Z.leb_le; lia].
Qed.

Lemma count_quote_doubled (f : string) :
  count_char quote (replace quote (String quote (String quote EmptyString)) f)
  = 2 * count_char quote f.
Proof.
  induction f as [|c f IH]; simpl; [reflexivity|].
  destruct (Ascii.eqb c quote) eqn:Hc; simpl.
  - rewrite IH. lia.
  - rewrite Hc, IH. lia.
Qed.

(** The three ways [format_csv_field] answers. *)
Lemma format_csv_field_cases (f : string) :
  (count_char quote f <> 0
   /\ format_csv_field f
      = String quote
          (replace quote (String quote (String quote EmptyString)) f
           ++ String quote EmptyString))
  \/ (count_char quote f = 0 /\ count_char comma f <> 0
      /\ format_csv_field f = String quote (f ++ String quote EmptyString))
  \/ (count_char quote f = 0 /\ count_char comma f = 0
      /\ format_csv_field f = f).
Proof.
  unfold format_csv_field. rewrite !find_found.
  destruct (count_char quote f =? 0) eqn:Hq; cbn [negb].
  - apply Nat.eqb_eq in Hq.
    destruct (count_char comma f =? 0) eqn:Hc; cbn [negb].
    + apply Nat.eqb_eq in Hc. auto.
    + apply Nat.eqb_neq in Hc. right; left. auto.
  - apply Nat.eqb_neq in Hq. left. auto.
Qed.

Lemma count_char_same (ch : ascii) (s : string) :
  count_char ch (String ch s) = S (count_char ch s).
Proof. simpl. rewrite Ascii.eqb_refl. reflexivity. Qed.

Lemma format_csv_field_count (f : string) :
  count_char quote (format_csv_field f)
  = if (0 <? count_char quote f) || (0 <? count_char comma f)
    then 2 * count_char quote f + 2 else 0.
Proof.
  destruct (format_csv_field_cases f) as [[Hq ->]|[[Hq [Hc ->]]|[Hq [Hc ->]]]].
  - assert (Hlt : (0 <? count_char quote f) = true) by (apply Nat.ltb_lt; lia).
    rewrite Hlt. cbn [orb].
    rewrite count_char_same, count_char_app, count_quote_doubled, count_char_same.
    cbn [count_char]. lia.
  - assert (Hlt : (0 <? count_char comma f) = true) by (apply Nat.ltb_lt; lia).
    rewrite Hlt, Bool.orb_true_r.
    rewrite count_char_same, count_char_app, count_char_same, Hq.
    cbn [count_char]. lia.
  - rewrite Hq, Hc. reflexivity.
Qed.

Lemma doubled_quotes_injective (f g : string) :
  replace quote (String quote (String quote EmptyString)) f
  = replace quote (String quote (String quote EmptyString)) g ->
  f = g.
Proof.
  revert g; induction f as [|a f IH]; intros [|b g]; simpl.
  - reflexivity.
  - destruct (Ascii.eqb b quote); discriminate.
  - destruct (Ascii.eqb a quote); discriminate.
  - destruct (Ascii.eqb a quote) eqn:Ha, (Ascii.eqb b quote) eqn:Hb; simpl;
      intros H.
    + apply Ascii.eqb_eq in Ha, Hb. subst a b.
      injection H as H. rewrite (IH g H). reflexivity.
    + injection H as Hab _. subst b. rewrite Ascii.eqb_refl in Hb. discriminate.
    + injection H as Hab _. subst a. rewrite Ascii.eqb_refl in Ha. discriminate.
    + injection H as -> H. rewrite (IH g H). reflexivity.
Qed.

Lemma append_one_injective (s t : string) (c : ascii) :
  (s ++ String c EmptyString)%string = (t ++ String c EmptyString)%string -> s = t.
Proof.
  revert t; induction s as [|a s IH]; intros [|b t]; simpl; intros H.
  - reflexivity.
  - injection H as _ H. destruct t; discriminate.
  - injection H as _ H. destruct s; discriminate.
  - injection H as -> H. rewrite (IH t H). reflexivity.
Qed.

Lemma format_csv_field_empty (f : string) :
  format_csv_field f = EmptyString -> f = EmptyString.
Proof.
  destruct (format_csv_field_cases f) as [[_ ->]|[[_ [_ ->]]|[_ [_ ->]]]];
    intros H; try discriminate. exact H.
Qed.

End Quoting.

(** X10.  The text [format_csv_field] returns holds an even number of quote
    characters: none when the value has neither quote nor comma (it is then
    returned as it is), and otherwise the two around it plus two for every
    quote of the value. *)
Theorem format_csv_field_quotes_balanced (f : string) :
  count_char quote (format_csv_field f)
  = (if (0 <? count_char quote f) || (0 <? count_char comma f)
     then 2 * count_char quote f + 2 else 0)
  /\ Nat.even (count_char quote (format_csv_field f)) = true
  /\ (count_char quote f = 0 -> count_char comma f = 0 ->
      format_csv_field f = f).
Proof.
  split; [apply format_csv_field_count|]. split.
  - rewrite format_csv_field_count.
    destruct ((0 <? count_char quote f) || (0 <? count_char comma f));
      [|reflexivity].
    replace (2 * count_char quote f + 2) with (2 * (count_char quote f + 1)) by lia.
    apply Nat.even_spec. exists (count_char quote f + 1). reflexivity.
  - intros Hq Hc.
    destruct (format_csv_field_cases f) as [[Hq' _]|[[_ [Hc' _]]|[_ [_ H]]]];
      [contradiction|contradiction|exact H].
Qed.

Lemma format_csv_field_quotes_balanced_witness :
  format_csv_field "5.25" = "5.25"%string.
Proof.
  destruct (format_csv_field_quotes_balanced "5.25") as [_ [_ H]].
  apply H; reflexivity.
Defined.

(** X11.  [format_csv_field] never gives the same text for two different
    values. *)
Theorem format_csv_field_injective (f g : string) :
  format_csv_field f = format_csv_field g -> f = g.
Proof.
  intros H.
  pose proof (format_csv_field_count f) as Cf.
  pose proof (format_csv_field_count g) as Cg.
  rewrite H in Cf. rewrite Cf in Cg. clear Cf.
  destruct (format_csv_field_cases f) as [[Hqf Ef]|[[Hqf [Hcf Ef]]|[Hqf [Hcf Ef]]]];
    destruct (format_csv_field_cases g) as [[Hqg Eg]|[[Hqg [Hcg Eg]]|[Hqg [Hcg Eg]]]];
    rewrite Ef, Eg in H.
  - injection H as H. apply append_one_injective in H.
    apply doubled_quotes_injective. exact H.
  - exfalso. injection H as H. apply append_one_injective in H.
    apply (f_equal (count_char quote)) in H.
    rewrite count_quote_doubled in H. lia.
  - exfalso. rewrite Hqg, Hcg in Cg.
    assert (Hlt : (0 <? count_char quote f) = true) by (apply Nat.ltb_lt; lia).
    rewrite Hlt in Cg. cbn [orb Nat.ltb Nat.leb] in Cg. lia.
  - exfalso. injection H as H. apply append_one_injective in H.
    apply (f_equal (count_char quote)) in H.
    rewrite count_quote_doubled in H. lia.
  - injection H as H. apply append_one_injective in H. exact H.
  - exfalso. rewrite Hqg, Hcg in Cg.
    assert (Hlt : (0 <? count_char comma f) = true) by (apply Nat.ltb_lt; lia).
    rewrite Hlt, Hqf in Cg. cbn [orb Nat.ltb Nat.leb] in Cg. lia.
  - exfalso. rewrite Hqf, Hcf in Cg.
    assert (Hlt : (0 <? count_char quote g) = true) by (apply Nat.ltb_lt; lia).
    rewrite Hlt in Cg. cbn [orb Nat.ltb Nat.leb] in Cg. lia.
  - exfalso. rewrite Hqf, Hcf in Cg.
    assert (Hlt : (0 <? count_char comma g) = true) by (apply Nat.ltb_lt; lia).
    rewrite Hlt, Hqg in Cg. cbn [orb Nat.ltb Nat.leb] in Cg. lia.
  - exact H.
Qed.

Lemma format_csv_field_injective_witness :
  "a,b"%string = "a,b"%string.
Proof.
  apply format_csv_field_injective. reflexivity.
Defined.

Section Lines.

Lemma concat_cons_joined (sep a b : string) (r : list string) :
  String.concat sep ((a ++ sep ++ b)%string :: r)
  = (a ++ sep ++ String.concat sep (b :: r))%string.
Proof.
  destruct r as [|c r]; [reflexivity|].
  change (String.concat sep ((a ++ sep ++ b)%string :: c :: r))
    with ((a ++ sep ++ b) ++ sep ++ String.concat sep (c :: r))%string.
  change (String.concat sep (b :: c :: r))
    with (b ++ sep ++ String.concat sep (c :: r))%string.
  rewrite !string_app_assoc. reflexivity.
Qed.

(** Once the line is not empty every further value is joined with a comma. *)
Lemma csv_fold_nonempty (l : list string) (lout : string) :
  lout <> EmptyString ->
  fold_left csv_add l lout = String.concat "," (lout :: map render l).
Proof.
  revert lout; induction l as [|f l IH]; intros lout Hne; [reflexivity|].
  cbn [fold_left map]. unfold csv_add at 2.
  destruct lout as [|c lout]; [contradiction|]. cbn [String.length Nat.eqb].
  fold (render f). rewrite IH.
  - apply (concat_cons_joined "," (String c lout) (render f)).
  - discriminate.
Qed.

Lemma csv_line_joined (l : list string) :
  csv_line l = String.concat "," (drop_empty (map render l)).
Proof.
  unfold csv_line. induction l as [|f l IH]; [reflexivity|].
  cbn [fold_left map]. unfold csv_add at 2. cbn [String.length Nat.eqb].
  fold (render f). destruct (render f) as [|c r] eqn:Hr.
  - exact IH.
  - cbn [drop_empty]. apply csv_fold_nonempty. discriminate.
Qed.

Lemma render_empty (f : string) :
  render f = EmptyString <-> strip space f = EmptyString.
Proof.
  unfold render. split.
  - apply format_csv_field_empty.
  - intros ->. reflexivity.
Qed.

Lemma spaces_app (k m : nat) : (spaces k ++ spaces m)%string = spaces (k + m).
Proof. induction k as [|k IH]; simpl; [reflexivity|]. rewrite IH. reflexivity. Qed.

Lemma spaces_snoc (k : nat) : spaces (S k) = (spaces k ++ " ")%string.
Proof.
  change (spaces k ++ " ")%string with (spaces k ++ spaces 1)%string.
  rewrite spaces_app. f_equal. lia.
Qed.

Lemma lstrip_prefix (s : string) :
  exists k, s = (spaces k ++ lstrip space s)%string.
Proof.
  induction s as [|c s [k IH]]; simpl.
  - exists 0. reflexivity.
  - destruct (Ascii.eqb c space) eqn:Hc.
    + apply Ascii.eqb_eq in Hc. subst c. exists (S k). simpl. rewrite <- IH.
      reflexivity.
    + exists 0. reflexivity.
Qed.

(** A text that ends with something else than a space keeps something when
    it is trimmed. *)
Lemma strip_nonempty (n : string) :
  n <> EmptyString -> (forall t, n <> (t ++ " ")%string) ->
  strip space n <> EmptyString.
Proof.
  intros Hne Hend Hstrip. unfold strip in Hstrip.
  destruct (lstrip_prefix n) as [k Hk].
  destruct (rstrip_suffix (lstrip space n)) as [m Hm].
  rewrite Hstrip in Hm. simpl in Hm. rewrite Hm, spaces_app in Hk.
  destruct (k + m) as [|j].
  - apply Hne. exact Hk.
  - rewrite spaces_snoc in Hk. exact (Hend _ Hk).
Qed.

Lemma rstrip_spaces (m : nat) : rstrip space (spaces m) = EmptyString.
Proof. induction m as [|m IH]; simpl; [reflexivity|]. rewrite IH. reflexivity. Qed.

Lemma rstrip_padded (s : string) (m : nat) :
  rstrip space (s ++ spaces m) = rstrip space s.
Proof.
  induction s as [|c s IH]; simpl; [apply rstrip_spaces|]. rewrite IH. reflexivity.
Qed.

Lemma lstrip_padded (s : string) (k : nat) :
  lstrip space (spaces k ++ s) = lstrip space s.
Proof. induction k as [|k IH]; simpl; [reflexivity|]. exact IH. Qed.

Lemma lstrip_spaces (m : nat) : lstrip space (spaces m) = EmptyString.
Proof. induction m as [|m IH]; simpl; [reflexivity|]. exact IH. Qed.

Lemma strip_padded (s : string) (k m : nat) :
  strip space (spaces k ++ s ++ spaces m) = strip space s.
Proof.
  unfold strip. rewrite lstrip_padded.
  destruct (lstrip_prefix s) as [j Hj].
  destruct (lstrip space s) as [|c r] eqn:Hl.
  - rewrite string_app_nil_r in Hj. rewrite Hj, spaces_app, lstrip_spaces.
    reflexivity.
  - assert (Hc : Ascii.eqb c space = false).
    { destruct (Ascii.eqb c space) eqn:E; [|reflexivity]. exfalso.
      apply Ascii.eqb_eq in E. subst c.
      assert (Hi : lstrip space (lstrip space s) = lstrip space s).
      { clear. induction s as [|a s IH]; simpl; [reflexivity|].
        destruct (Ascii.eqb a space) eqn:Ea; [exact IH|].
        simpl. rewrite Ea. reflexivity. }
      rewrite Hl in Hi. simpl in Hi.
      assert (Hlen : forall t, String.length (lstrip space t) <= String.length t).
      { clear. induction t as [|a t IH]; simpl; [lia|].
        destruct (Ascii.eqb a space); simpl; lia. }
      pose proof (Hlen r) as Hr. rewrite Hi in Hr. simpl in Hr. lia. }
    rewrite Hj at 1. rewrite string_app_assoc, lstrip_padded.
    cbn [append lstrip]. rewrite Hc. apply (rstrip_padded (String c r)).
Qed.

End Lines.

(** X12.  The line printed for a list of values is the rendered values
    joined with commas, after the values at the front of the list that are
    empty once trimmed have been left out: such a value is not printed at
    all, not even its comma, so the columns behind it move to the left.  A
    line whose first value is not blank is the plain join of all of them. *)
Theorem csv_line_drops_leading_blanks :
  (forall l, csv_line l = String.concat "," (drop_empty (map render l)))
  /\ (forall f l, strip space f = EmptyString -> csv_line (f :: l) = csv_line l)
  /\ (forall f l, strip space f <> EmptyString ->
                  csv_line (f :: l) = String.concat "," (map render (f :: l))).
Proof.
  split; [exact csv_line_joined|]. split.
  - intros f l Hf. rewrite !csv_line_joined. cbn [map].
    apply render_empty in Hf. rewrite Hf. reflexivity.
  - intros f l Hf. rewrite csv_line_joined. cbn [map].
    destruct (render f) as [|c r] eqn:Hr; [|reflexivity].
    apply render_empty in Hr. contradiction.
Qed.

Lemma csv_line_drops_leading_blanks_witness :
  csv_line [" "; "5"]%string = csv_line ["5"%string]
  /\ csv_line ["4"; ""; "5"]%string
     = String.concat "," (map render ["4"; ""; "5"]%string).
Proof.
  destruct csv_line_drops_leading_blanks as [_ [H1 H2]]. split.
  - apply H1. reflexivity.
  - apply H2. vm_compute. discriminate.
Defined.

(** X13.  The header line printed for a decoded file loses no column: for
    the header of any returned result, no name is blank once trimmed, and the
    line is the join of all the rendered names. *)
Theorem decoded_header_line_complete (fuel : nat) (cbf : string)
    headings header records errors :
  parse_cbf fuel cbf = Returns (headings, header, records, errors) ->
  Forall (fun name => render name <> EmptyString) header
  /\ csv_line header = String.concat "," (map render header).
Proof.
  intros Hrun. apply parse_cbf_inv in Hrun.
  assert (Hall : Forall well_formed_name header).
  { destruct Hrun as [Hearly|[hs [hd [nf [fp [st [Hp [Hd Hr]]]]]]]].
    - apply read_prologue_names in Hearly. exact Hearly.
    - apply read_prologue_names in Hp. unfold reconcile in Hr.
      injection Hr as _ -> _ _. exact Hp. }
  assert (Hrender : Forall (fun name => render name <> EmptyString) header).
  { eapply Forall_impl; [|exact Hall]. intros name [Hne [Hend _]] Hr.
    apply render_empty in Hr. exact (strip_nonempty name Hne Hend Hr). }
  split; [exact Hrender|].
  rewrite csv_line_joined. destruct header as [|name header]; [reflexivity|].
  cbn [map]. inversion Hrender as [|? ? Hname _]; subst.
  destruct (render name); [contradiction|reflexivity].
Qed.

Lemma decoded_header_line_complete_witness :
  Forall (fun name => render name <> EmptyString) ["X"%string]
  /\ csv_line ["X"%string] = String.concat "," (map render ["X"%string]).
Proof.
  apply (decoded_header_line_complete 4 scenario_documented
           ["A"; "B"; "C"]%string ["X"%string] [["5"%string]] []).
  vm_compute. reflexivity.
Defined.

(** X14.  Spaces around a value do not show in the table: a value printed
    with any number of spaces in front of it and behind it gives the same
    text as the value alone. *)
Theorem render_ignores_padding (f : string) (k m : nat) :
  render (spaces k ++ f ++ spaces m) = render f.
Proof. unfold render. rewrite strip_padded. reflexivity. Qed.

(** X8.  A buffer that is not empty and holds no zero byte is reported as
    cut inside the first heading: the decoder returns nothing but that one
    error, and the script prints the error line followed by the empty line
    of the empty table. *)
Theorem unterminated_heading_reported (fuel : nat) (cbf : string) :
  cbf <> EmptyString ->
  (forall i c, get i cbf = Some c -> c <> NUL) ->
  String.length cbf <= fuel ->
  parse_cbf fuel cbf
  = Returns ([], [], [], [message (UnexpectedEndOfFile heading1)])
  /\ report fuel cbf
     = Returns ["Error: end of file during heading 1 parse"; EmptyString].
Proof.
  intros Hne Hnz Hfuel.
  pose proof (truncated_in_heading1 fuel cbf Hne Hnz Hfuel) as Hrun.
  split; [exact Hrun|]. unfold report. rewrite Hrun. reflexivity.
Qed.

Lemma unterminated_heading_reported_witness :
  report 3 "abc"
  = Returns ["Error: end of file during heading 1 parse"; EmptyString].
Proof.
  apply unterminated_heading_reported; [discriminate | | simpl; lia].
  intros [|[|[|i]]] c H; simpl in H; try discriminate;
    injection H as <-; discriminate.
Defined.

(** * Counts: their bytes and their texts *)

Section Counts.

(** [str] writes an integer in decimal notation. *)
Lemma str_decimal (n : Z) : decimal_value (str n) = Some n.
Proof.
  unfold decimal_value, str. rewrite NilZero.isi.
  - simpl. rewrite DecimalZ.of_to. reflexivity.
  - intros H. pose proof (DecimalZ.of_to n) as E. rewrite H in E.
    simpl in E. subst n. discriminate H.
  - intros H. pose proof (DecimalZ.of_to n) as E. rewrite H in E.
    simpl in E. subst n. discriminate H.
Qed.

Lemma str_injective (n m : Z) : str n = str m -> n = m.
Proof.
  intros H. pose proof (str_decimal n) as Hn. rewrite H, str_decimal in Hn.
  congruence.
Qed.

Lemma digits_no_space (d : Decimal.uint) :
  count_char space (NilEmpty.string_of_uint d) = 0.
Proof. induction d; simpl; auto. Qed.

Lemma str_no_space (n : Z) : count_char space (str n) = 0.
Proof.
  unfold str. destruct (Z.to_int n) as [d|d]; simpl;
    destruct d; simpl; rewrite ?digits_no_space; reflexivity.
Qed.

Lemma string_cons_inj (c : ascii) (s t : string) :
  String c s = String c t -> s = t.
Proof. intros H. congruence. Qed.

(** Two texts without space in front of a space are the same text. *)
Lemma split_at_space (s s' t t' : string) :
  count_char space s = 0 -> count_char space s' = 0 ->
  (s ++ String space t)%string = (s' ++ String space t')%string ->
  s = s' /\ t = t'.
Proof.
  revert s'; induction s as [|a s IH]; intros [|b s'] Hs Hs' H; simpl in *.
  - split; congruence.
  - exfalso. injection H as Hb _. subst b.
    rewrite Ascii.eqb_refl in Hs'. discriminate.
  - exfalso. injection H as Ha _. subst a.
    rewrite Ascii.eqb_refl in Hs. discriminate.
  - injection H as -> H.
    destruct (Ascii.eqb b space); [discriminate|]. simpl in Hs, Hs'.
    destruct (IH s' Hs Hs' H) as [-> ->]. split; reflexivity.
Qed.

(** The text of a record count mismatch tells both counts. *)
Lemma mismatch_message_injective (a e a' e' : Z) :
  mismatch_message a e = mismatch_message a' e' -> a = a' /\ e = e'.
Proof.
  unfold mismatch_message. cbn [append]. intros H.
  repeat apply string_cons_inj in H.
  apply split_at_space in H; [|apply str_no_space|apply str_no_space].
  destruct H as [Ha H]. repeat apply string_cons_inj in H.
  apply split_at_space in H; [|apply str_no_space|apply str_no_space].
  destruct H as [He _].
  split; apply str_injective; assumption.
Qed.

Lemma ord_ascii_of_mod (x : Z) :
  Z.of_nat (ord (ascii_of_nat (Z.to_nat (x mod 256)))) = (x mod 256)%Z.
Proof.
  pose proof (Z.mod_pos_bound x 256 eq_refl) as Hb.
  unfold ord. rewrite nat_ascii_embedding; [apply Z2Nat.id; lia|].
  change 256 with (Z.to_nat 256). apply Z2Nat.inj_lt; lia.
Qed.

(** [le32] reads four bytes as the number they are the little-endian
    bytes of. *)
Lemma le32_le_bytes (n : Z) (c0 c1 c2 c3 : ascii) :
  (0 <= n < 2 ^ 32)%Z ->
  le_bytes n = [c0; c1; c2; c3] ->
  le32 c0 c1 c2 c3 = n.
Proof.
  intros Hn H. unfold le_bytes in H. cbn [map] in H.
  injection H as <- <- <- <-. unfold le32. rewrite !ord_ascii_of_mod.
  change (2 ^ 32)%Z with 4294967296%Z in Hn.
  Z.div_mod_to_equations. lia.
Qed.

Lemma le_bytes_le32 (c0 c1 c2 c3 : ascii) :
  le_bytes (le32 c0 c1 c2 c3) = [c0; c1; c2; c3].
Proof.
  pose proof (ord_bounded c0) as H0. pose proof (ord_bounded c1) as H1.
  pose proof (ord_bounded c2) as H2. pose proof (ord_bounded c3) as H3.
  assert (E0 : (le32 c0 c1 c2 c3 mod 256 = Z.of_nat (ord c0))%Z)
    by (unfold le32; Z.div_mod_to_equations; lia).
  assert (E1 : ((le32 c0 c1 c2 c3 / 256) mod 256 = Z.of_nat (ord c1))%Z)
    by (unfold le32; Z.div_mod_to_equations; lia).
  assert (E2 : ((le32 c0 c1 c2 c3 / 65536) mod 256 = Z.of_nat (ord c2))%Z)
    by (unfold le32; Z.div_mod_to_equations; lia).
  assert (E3 : ((le32 c0 c1 c2 c3 / 16777216) mod 256 = Z.of_nat (ord c3))%Z)
    by (unfold le32; Z.div_mod_to_equations; lia).
  unfold le_bytes. cbn [map]. rewrite E0, E1, E2, E3, !Nat2Z.id.
  unfold ord. rewrite !ascii_nat_embedding. reflexivity.
Qed.

End Counts.

(** C6.  When the record loop has been left, the number of records read is
    the number of records in the result; the expected count is the one read
    from the trailer if the loop stopped at the end-of-file mark, and [-1]
    otherwise; the loop itself has recorded no mismatch.  The result carries
    the records read and the errors of the loop, with one mismatch error at
    the end if and only if the two counts differ.  That error is the text
    "read A records but expected E records" with the actual count A and the
    expected count E in decimal notation: it tells both counts, and no other
    pair of counts gives the same text. *)
Theorem record_count_reconciliation (fuel : nat) (cbf : string)
    headings header (num_fields fp : nat) (st : dstate) :
  read_prologue fuel cbf = Returns (Table headings header num_fields fp) ->
  data_loop fuel cbf num_fields (data_start fp) = Returns st ->
  let actual := Z.of_nat (List.length (d_data st)) in
  let expected := d_expected_records st in
  d_read_records st = actual
  /\ ((eof_mark cbf (d_fp st) = Returns true
       /\ trailer_count cbf (d_fp st) = Returns expected)
      \/ (eof_mark cbf (d_fp st) <> Returns true /\ expected = (-1)%Z))
  /\ filter is_mismatch_error (d_errors st) = []
  /\ (actual = expected ->
      parse_cbf fuel cbf = Returns (headings, header, d_data st, d_errors st))
  /\ (actual <> expected ->
      parse_cbf fuel cbf
      = Returns (headings, header, d_data st,
                 d_errors st ++ [message (RecordCountMismatch expected actual)]))
  /\ (forall errors,
         parse_cbf fuel cbf = Returns (headings, header, d_data st, errors) ->
         List.length (filter is_mismatch_error errors)
         = if (actual =? expected)%Z then 0 else 1)
  /\ message (RecordCountMismatch expected actual)
     = ("read " ++ str actual ++ " records but expected "
        ++ str expected ++ " records")%string
  /\ decimal_value (str actual) = Some actual
  /\ decimal_value (str expected) = Some expected
  /\ (forall expected' actual',
         message (RecordCountMismatch expected' actual')
         = message (RecordCountMismatch expected actual) ->
         expected' = expected /\ actual' = actual).
Proof.
  intros Hp Hd actual expected.
  pose proof (parse_cbf_through_loop _ _ _ _ _ _ _ Hp Hd) as Hrun.
  apply data_loop_from_start in Hd. destruct Hd as [Hrr [_ Hexit]].
  rewrite (reconcile_errors _ _ _ Hrr) in Hrun.
  fold actual expected in Hrun.
  assert (Hclean : filter is_mismatch_error (d_errors st) = []).
  { destruct Hexit as [[-> _]|[[-> _]|[-> _]]]; reflexivity. }
  split; [exact Hrr|]. split.
  { destruct Hexit as [[_ [_ [Hm Ht]]]|[[_ [Hx Hf]]|[_ [Hx Hf]]]].
    - left. auto.
    - right. split; [|exact Hx].
      rewrite (eof_mark_out_of_bounds _ _ Hf). discriminate.
    - right. split; [|exact Hx].
      rewrite (eof_mark_out_of_bounds _ _ Hf). discriminate. }
  split; [exact Hclean|].
  split; [|split; [|split; [|split; [|split; [|split]]]]].
  - intros Heq. apply Z.eqb_eq in Heq. rewrite Heq in Hrun. exact Hrun.
  - intros Hne. apply Z.eqb_neq in Hne. rewrite Hne in Hrun. exact Hrun.
  - intros errors Herr. rewrite Hrun in Herr.
    destruct (actual =? expected)%Z; injection Herr as <-.
    + rewrite Hclean. reflexivity.
    + rewrite filter_app, Hclean. cbn [filter app].
      change (mismatch_message actual expected)
        with (message (RecordCountMismatch expected actual)).
      rewrite is_mismatch_error_message. reflexivity.
  - reflexivity.
  - apply str_decimal.
  - apply str_decimal.
  - intros expected' actual' H. cbn [message] in H.
    apply mismatch_message_injective in H. destruct H as [-> ->]. auto.
Qed.

Lemma record_count_reconciliation_witness :
  parse_cbf 4 scenario_miscounted
  = Returns (["A"; "B"; "C"], ["X"], [["5"]],
             ["read 1 records but expected 2 records"]).
Proof.
  destruct (record_count_reconciliation 4 scenario_miscounted
              ["A"; "B"; "C"]%string ["X"%string] 1 19
              (mk_dstate 21 [["5"%string]] 1 2 []))
    as [_ [_ [_ [_ [H _]]]]];
    [vm_compute; reflexivity | vm_compute; reflexivity |].
  apply H. vm_compute. discriminate.
Defined.

(** C8, on the code.  When fewer than five bytes follow a completed record,
    the mark is not found behind it, and yet record parsing does not
    continue: the look-ahead reads outside the buffer and the record loop
    raises [IndexError].  So does the whole decoder on a file that ends with
    its one record. *)
Theorem lookahead_past_end_raises :
  (forall (fuel : nat) (cbf : string) (num_fields : nat) (st : dstate)
          (l : lstate) (errors' : list string),
      d_fp st < String.length cbf ->
      read_dataline (S fuel) cbf num_fields
        (mk_lstate (d_fp st) 0 EmptyString []) (d_errors st)
      = Returns (l, errors') ->
      l_fn l = num_fields ->
      String.length cbf <= l_fp l + 4 ->
      ~ mark_at cbf (l_fp l)
      /\ eof_mark cbf (l_fp l) = IndexError
      /\ data_loop (S fuel) cbf num_fields st = IndexError)
  /\ parse_cbf 4 cut_after_record = IndexError
  /\ ~ (exists fuel r, parse_cbf fuel cut_after_record = Returns r).
Proof.
  split; [|split].
  - intros fuel cbf num_fields [fp records rr er errors] l errors' Hfp Hline Hfn Hend.
    cbn [d_fp d_errors] in *.
    assert (Hraise : eof_mark cbf (l_fp l) = IndexError).
    { unfold eof_mark.
      assert (Hi : index cbf (l_fp l + 4) = IndexError)
        by (apply index_out_of_bounds; exact Hend).
      rewrite Hi. reflexivity. }
    split; [|split; [exact Hraise|]].
    + intros [H4 _]. apply get_Some_lt in H4. lia.
    + cbn [data_loop]. apply Nat.ltb_lt in Hfp. rewrite Hfp, Hline. cbn [bind].
      apply Nat.eqb_eq in Hfn. rewrite Hfn, Hraise. reflexivity.
  - vm_compute. reflexivity.
  - intros [fuel [r H]]. revert H. apply (parse_cbf_raises 4).
    vm_compute. reflexivity.
Qed.

Lemma lookahead_past_end_raises_witness :
  data_loop 4 cut_after_record 1 (data_start 19) = IndexError.
Proof.
  destruct lookahead_past_end_raises as [H _].
  destruct (H 3 cut_after_record 1 (data_start 19)
              (mk_lstate 21 1 EmptyString ["5"%string]) [])
    as [_ [_ Hloop]];
    [apply Nat.ltb_lt; vm_compute; reflexivity
    | vm_compute; reflexivity | reflexivity
    | apply Nat.leb_le; vm_compute; reflexivity | exact Hloop].
Defined.

(** X15.  Behind a completed record the cursor stands just past the final
    terminator.  If the bytes at offsets 4 to 7 from there are AA 55 33 11,
    the mark test succeeds, the expected count becomes the number whose four
    little-endian bytes stand at offsets 0 to 3 (an unsigned 32-bit value),
    and the record loop returns at once with the records read so far:
    nothing behind the trailer is parsed.  If the mark test fails, the loop
    goes on from the same cursor.  With the four bytes at offsets 4 to 7 in
    the buffer the test does one or the other. *)
Theorem trailer_lookahead (fuel : nat) (cbf : string) (num_fields : nat)
    (st : dstate) (l : lstate) (errors' : list string) :
  d_fp st < String.length cbf ->
  read_dataline (S fuel) cbf num_fields
    (mk_lstate (d_fp st) 0 EmptyString []) (d_errors st) = Returns (l, errors') ->
  l_fn l = num_fields ->
  let fp := l_fp l in
  let records := d_data st ++ [l_dataline l] in
  let read_records := (d_read_records st + 1)%Z in
  (0 < num_fields -> exists p, fp = S p /\ get p cbf = Some NUL)
  /\ (eof_mark cbf fp = Returns true
      <-> (get (fp + 4) cbf = Some xaa /\ get (fp + 5) cbf = Some x55
           /\ get (fp + 6) cbf = Some x33 /\ get (fp + 7) cbf = Some x11))
  /\ (eof_mark cbf fp = Returns true ->
      exists c0 c1 c2 c3,
        get fp cbf = Some c0 /\ get (fp + 1) cbf = Some c1
        /\ get (fp + 2) cbf = Some c2 /\ get (fp + 3) cbf = Some c3
        /\ (0 <= le32 c0 c1 c2 c3 < 2 ^ 32)%Z
        /\ le_bytes (le32 c0 c1 c2 c3) = [c0; c1; c2; c3]
        /\ data_loop (S fuel) cbf num_fields st
           = Returns (mk_dstate fp records read_records
                                (le32 c0 c1 c2 c3) errors'))
  /\ (eof_mark cbf fp = Returns false ->
      data_loop (S fuel) cbf num_fields st
      = data_loop fuel cbf num_fields
          (mk_dstate fp records read_records (d_expected_records st) errors'))
  /\ (fp + 7 < String.length cbf ->
      eof_mark cbf fp = Returns true \/ eof_mark cbf fp = Returns false).
Proof.
  intros Hfp Hline Hfn fp records read_records.
  assert (Hstep : data_loop (S fuel) cbf num_fields st
                  = (mark <- eof_mark cbf fp ;;
                     if mark then
                       expected_records <- trailer_count cbf fp ;;
                       Returns (mk_dstate fp records read_records
                                          expected_records errors')
                     else
                       data_loop fuel cbf num_fields
                         (mk_dstate fp records read_records
                                    (d_expected_records st) errors'))).
  { destruct st as [fp0 data0 rr er errors]. cbn [data_loop].
    cbn [d_fp d_errors d_data d_read_records d_expected_records] in *.
    apply Nat.ltb_lt in Hfp. rewrite Hfp, Hline. cbn [bind].
    apply Nat.eqb_eq in Hfn. rewrite Hfn. reflexivity. }
  split.
  { intros Hnf. apply (read_dataline_position _ _ _ _ _ _ _ Hline); [|exact Hfn].
    left. exact Hnf. }
  split; [apply eof_mark_true|]. split; [|split].
  - intros Hmark.
    destruct (trailer_count_defined _ _ Hmark)
      as [c0 [c1 [c2 [c3 [E0 [E1 [E2 [E3 Ht]]]]]]]].
    exists c0, c1, c2, c3.
    rewrite Hstep, Hmark. cbn [bind]. rewrite Ht. cbn [bind].
    pose proof (le32_range c0 c1 c2 c3).
    pose proof (le_bytes_le32 c0 c1 c2 c3). auto 9.
  - intros Hmark. rewrite Hstep, Hmark. reflexivity.
  - intros Hin. destruct (eof_mark_decided _ _ Hin) as [[|] Hb]; auto.
Qed.

Lemma trailer_lookahead_witness :
  data_loop 4 scenario_miscounted 1 (data_start 19)
  = Returns (mk_dstate 21 [["5"]] 1 2 []).
Proof.
  destruct (trailer_lookahead 3 scenario_miscounted 1 (data_start 19)
              (mk_lstate 21 1 EmptyString ["5"]) [])
    as [_ [_ [Hfound _]]];
    [apply Nat.ltb_lt; vm_compute; reflexivity
    | vm_compute; reflexivity | reflexivity |].
  destruct Hfound as [c0 [c1 [c2 [c3 [E0 [E1 [E2 [E3 [_ [_ Hrun]]]]]]]]]];
    [vm_compute; reflexivity|].
  vm_compute in E0, E1, E2, E3.
  injection E0 as <-. injection E1 as <-. injection E2 as <-. injection E3 as <-.
  exact Hrun.
Defined.

(** * A table of data followed by its trailer *)

Section WellFormedTable.

Variable cbf : string.
Variable num_fields : nat.

Lemma string_length_app (s t : string) :
  String.length (s ++ t) = String.length s + String.length t.
Proof. induction s as [|c s IH]; simpl; [reflexivity|]. rewrite IH. reflexivity. Qed.

Lemma occurs_at_app (s t : string) (p : nat) :
  occurs_at (s ++ t) p cbf ->
  occurs_at s p cbf /\ occurs_at t (p + String.length s) cbf.
Proof.
  intros H. split; intros i c Hi.
  - apply H. rewrite <- append_correct1; [exact Hi|]. exact (get_Some_lt _ _ _ Hi).
  - replace (p + String.length s + i) with (p + (i + String.length s)) by lia.
    apply H. rewrite <- append_correct2. exact Hi.
Qed.

Lemma occurs_at_cons (c : ascii) (s : string) (p : nat) :
  occurs_at (String c s) p cbf ->
  get p cbf = Some c /\ occurs_at s (p + 1) cbf.
Proof.
  intros H. split.
  - specialize (H 0 c eq_refl). rewrite Nat.add_0_r in H. exact H.
  - intros i d Hi. replace (p + 1 + i) with (p + S i) by lia. apply H. exact Hi.
Qed.

(** The inner record loop on a value without zero byte and its terminator. *)
Lemma read_value (v : string) :
  forall (fuel p fn : nat) (ft : string) (dl errors : list string),
    fn < num_fields ->
    count_char NUL v = 0 ->
    occurs_at v p cbf ->
    get (p + String.length v) cbf = Some NUL ->
    read_dataline (String.length v + 1 + fuel) cbf num_fields
      (mk_lstate p fn ft dl) errors
    = read_dataline fuel cbf num_fields
        (mk_lstate (p + String.length v + 1) (fn + 1) EmptyString
                   (dl ++ [(ft ++ v)%string])) errors.
Proof.
  induction v as [|c v IH]; intros fuel p fn ft dl errors Hfn Hnul Hocc Hend.
  - cbn [String.length Nat.add read_dataline l_fn l_fp l_ft l_dataline].
    rewrite Nat.add_0_r in Hend |- *. rewrite string_app_nil_r.
    apply Nat.ltb_lt in Hfn. rewrite Hfn.
    pose proof (get_Some_lt _ _ _ Hend) as Hlt. apply Nat.leb_gt in Hlt.
    rewrite Hlt. apply index_Returns in Hend. rewrite Hend. reflexivity.
  - cbn [count_char] in Hnul.
    destruct (Ascii.eqb c NUL) eqn:Hc; [discriminate|]. cbn [Nat.add] in Hnul.
    apply occurs_at_cons in Hocc. destruct Hocc as [Hget Hocc].
    cbn [String.length] in Hend |- *.
    change (S (String.length v) + 1 + fuel)
      with (S (String.length v + 1 + fuel)).
    cbn [read_dataline l_fn l_fp l_ft l_dataline].
    pose proof Hfn as Hfn'. apply Nat.ltb_lt in Hfn'. rewrite Hfn'.
    pose proof (get_Some_lt _ _ _ Hget) as Hlt. apply Nat.leb_gt in Hlt.
    rewrite Hlt. apply index_Returns in Hget. rewrite Hget. cbn [bind].
    rewrite Hc. rewrite IH; [|exact Hfn|exact Hnul|exact Hocc|].
    + rewrite string_app_assoc. cbn [append].
      replace (p + 1 + String.length v + 1) with (p + S (String.length v) + 1)
        by lia.
      reflexivity.
    + replace (p + 1 + String.length v) with (p + S (String.length v)) by lia.
      exact Hend.
Qed.

(** The inner record loop on a whole line. *)
Lemma read_line (r : list string) :
  forall (fuel p fn : nat) (dl errors : list string),
    fn + List.length r = num_fields ->
    Forall (fun v => count_char NUL v = 0) r ->
    occurs_at (encode_line r) p cbf ->
    read_dataline (String.length (encode_line r) + 1 + fuel) cbf num_fields
      (mk_lstate p fn EmptyString dl) errors
    = Returns (mk_lstate (p + String.length (encode_line r)) num_fields
                         EmptyString (dl ++ r), errors).
Proof.
  induction r as [|v r IH]; intros fuel p fn dl errors Hfn Hnul Hocc.
  - cbn [List.length] in Hfn. rewrite Nat.add_0_r in Hfn. subst fn.
    cbn [encode_line fold_right String.length Nat.add read_dataline l_fn].
    rewrite Nat.ltb_irrefl, Nat.add_0_r, app_nil_r. reflexivity.
  - cbn [List.length] in Hfn.
    pose proof (Forall_inv Hnul) as Hv. pose proof (Forall_inv_tail Hnul) as Hr.
    change (encode_line (v :: r)) with (v ++ String NUL (encode_line r))%string
      in Hocc |- *.
    apply occurs_at_app in Hocc. destruct Hocc as [Hov Hrest].
    apply occurs_at_cons in Hrest. destruct Hrest as [Hz Hrest].
    rewrite string_length_app. cbn [String.length].
    replace (String.length v + S (String.length (encode_line r)) + 1 + fuel)
      with (String.length v + 1 + (String.length (encode_line r) + 1 + fuel))
      by lia.
    rewrite read_value; [|lia|exact Hv|exact Hov|exact Hz].
    cbn [append].
    rewrite IH; [|lia|exact Hr|exact Hrest].
    rewrite <- app_assoc. cbn [app].
    replace (p + String.length v + 1 + String.length (encode_line r))
      with (p + (String.length v + S (String.length (encode_line r)))) by lia.
    reflexivity.
Qed.

Lemma get_in_bounds (s : string) (i : nat) :
  i < String.length s -> exists c, get i s = Some c.
Proof.
  intros H. destruct (get i s) as [c|] eqn:E; [eauto|].
  apply get_None_iff in E. lia.
Qed.

Lemma encode_line_length (r : list string) :
  List.length r <= String.length (encode_line r).
Proof.
  induction r as [|v r IH]; [apply le_n|].
  change (encode_line (v :: r)) with (v ++ String NUL (encode_line r))%string.
  rewrite string_length_app. simpl. lia.
Qed.

Lemma trailer_read (n : Z) (q : nat) :
  (0 <= n < 2 ^ 32)%Z ->
  occurs_at (trailer n) q cbf ->
  eof_mark cbf q = Returns true /\ trailer_count cbf q = Returns n.
Proof.
  intros Hn Hocc. split.
  - apply eof_mark_true. repeat split; apply Hocc; reflexivity.
  - unfold trailer_count.
    assert (H0 : index cbf (q + 0) = Returns (ascii_of_nat (Z.to_nat (n mod 256))))
      by (apply index_Returns, Hocc; reflexivity).
    assert (H1 : index cbf (q + 1)
                 = Returns (ascii_of_nat (Z.to_nat ((n / 256) mod 256))))
      by (apply index_Returns, Hocc; reflexivity).
    assert (H2 : index cbf (q + 2)
                 = Returns (ascii_of_nat (Z.to_nat ((n / 65536) mod 256))))
      by (apply index_Returns, Hocc; reflexivity).
    assert (H3 : index cbf (q + 3)
                 = Returns (ascii_of_nat (Z.to_nat ((n / 16777216) mod 256))))
      by (apply index_Returns, Hocc; reflexivity).
    rewrite H0, H1, H2, H3. cbn [bind]. f_equal.
    apply le32_le_bytes; [exact Hn|reflexivity].
Qed.

(** The record loop on a table of records followed by its trailer. *)
Lemma data_loop_reads (rs : list (list string)) :
  forall (fuel p : nat) (recs : list (list string)) (rr er : Z)
         (errors : list string) (n : Z),
    rs <> [] ->
    0 < num_fields ->
    Forall (fun r => List.length r = num_fields
                     /\ Forall (fun v => count_char NUL v = 0) r) rs ->
    occurs_at (encode_data rs ++ trailer n) p cbf ->
    (0 <= n < 2 ^ 32)%Z ->
    (forall k, 0 < k < List.length rs ->
               ~ mark_at cbf (p + String.length (encode_data (firstn k rs)))) ->
    String.length (encode_data rs) < fuel ->
    data_loop fuel cbf num_fields (mk_dstate p recs rr er errors)
    = Returns (mk_dstate (p + String.length (encode_data rs)) (recs ++ rs)
                         (rr + Z.of_nat (List.length rs)) n errors).
Proof.
  induction rs as [|r rs IH];
    intros fuel p recs rr er errors n Hne Hnf Hall Hocc Hn Hmarks Hfuel;
    [contradiction|].
  destruct (Forall_inv Hall) as [Hlen Hnul].
  pose proof (Forall_inv_tail Hall) as Hrest.
  change (encode_data (r :: rs)) with (encode_line r ++ encode_data rs)%string
    in Hocc, Hfuel |- *.
  rewrite string_app_assoc in Hocc.
  apply occurs_at_app in Hocc. destruct Hocc as [Hline Hocc].
  rewrite string_length_app in Hfuel |- *.
  pose proof (encode_line_length r) as Hrlen.
  destruct fuel as [|fuel]; [lia|]. cbn [data_loop].
  assert (Hp : (p <? String.length cbf) = true).
  { apply Nat.ltb_lt.
    destruct (get_in_bounds (encode_line r) 0) as [c Hc]; [lia|].
    specialize (Hline 0 c Hc). rewrite Nat.add_0_r in Hline.
    exact (get_Some_lt _ _ _ Hline). }
  rewrite Hp.
  replace (S fuel)
    with (String.length (encode_line r) + 1
          + (S fuel - (String.length (encode_line r) + 1))) at 1 by lia.
  rewrite read_line; [|cbn [Nat.add]; exact Hlen|exact Hnul|exact Hline].
  cbn [bind app l_fp l_fn l_dataline]. rewrite Nat.eqb_refl.
  destruct rs as [|r2 rs].
  - cbn [encode_data fold_right append String.length] in Hocc |- *.
    destruct (trailer_read n _ Hn Hocc) as [Hmark Hcount].
    rewrite Hmark. cbn [bind]. rewrite Hcount. cbn [bind List.length].
    rewrite Nat.add_0_r. reflexivity.
  - assert (Hin : p + String.length (encode_line r) + 7 < String.length cbf).
    { destruct (get_in_bounds (encode_data (r2 :: rs) ++ trailer n) 7) as [c Hc].
      - rewrite string_length_app. simpl. lia.
      - exact (get_Some_lt _ _ _ (Hocc 7 c Hc)). }
    destruct (eof_mark_decided _ _ Hin) as [[|] Hmark].
    + exfalso. apply eof_mark_true in Hmark. apply (Hmarks 1).
      * cbn [List.length]. lia.
      * cbn [firstn encode_data fold_right]. rewrite string_app_nil_r.
        exact Hmark.
    + rewrite Hmark. cbn [bind].
      rewrite (IH fuel (p + String.length (encode_line r))
                  (recs ++ [r]) (rr + 1)%Z er errors n);
        [|discriminate|exact Hnf|exact Hrest|exact Hocc|exact Hn| |lia].
      * f_equal. f_equal; [lia|rewrite <- app_assoc; reflexivity|].
        cbn [List.length]. lia.
      * intros k Hk. intros Hm. apply (Hmarks (S k)).
        -- cbn [List.length] in Hk |- *. lia.
        -- change (firstn (S k) (r :: r2 :: rs)) with (r :: firstn k (r2 :: rs)).
           change (encode_data (r :: firstn k (r2 :: rs)))
             with (encode_line r ++ encode_data (firstn k (r2 :: rs)))%string.
           rewrite string_length_app, Nat.add_assoc. exact Hm.
Qed.

End WellFormedTable.

(** C7, as worded.  Four buffers with a well-formed trailer on which the
    decoder does not return as many records as the trailer announces without
    a mismatch.  One record and a trailer that announces two: one record and
    a mismatch.  Two records, the trailer that announces two, and the bytes
    of the mark inside the second value: one record and a mismatch, the
    expected count being the first four bytes of that value.  No record and
    the trailer that announces none: IndexError.  No column and a trailer
    that announces two records: one empty record and a mismatch. *)
Lemma trailer_count_disagreements :
  (eof_mark scenario_miscounted 21 = Returns true
   /\ trailer_count scenario_miscounted 21 = Returns 2%Z
   /\ parse_cbf 4 scenario_miscounted
      = Returns (["A"; "B"; "C"], ["X"], [["5"]],
                 ["read 1 records but expected 2 records"])
   /\ ~ (exists fuel headings header records errors,
            parse_cbf fuel scenario_miscounted
            = Returns (headings, header, records, errors)
            /\ (List.length records = 2
                \/ filter is_mismatch_error errors = [])))
  /\ (occurs_at (encode_data [["5"]; [("abcd" ++ bytes [xaa; x55; x33; x11])%string]]
                 ++ trailer 2) 19 mark_inside_value
      /\ mark_at mark_inside_value 21
      /\ eof_mark mark_inside_value 30 = Returns true
      /\ trailer_count mark_inside_value 30 = Returns 2%Z
      /\ parse_cbf 4 mark_inside_value
         = Returns (["A"; "B"; "C"], ["X"], [["5"]],
                    ["read 1 records but expected 1684234849 records"]))
  /\ (eof_mark no_record 19 = Returns true
      /\ trailer_count no_record 19 = Returns 0%Z
      /\ parse_cbf 8 no_record = IndexError
      /\ ~ (exists fuel r, parse_cbf fuel no_record = Returns r))
  /\ (eof_mark no_column_two_records 16 = Returns true
      /\ trailer_count no_column_two_records 16 = Returns 2%Z
      /\ parse_cbf 4 no_column_two_records
         = Returns (["A"; "B"; "C"], [], [[]],
                    ["read 1 records but expected 2 records"])).
Proof.
  assert (Hrun : parse_cbf 4 scenario_miscounted
                 = Returns (["A"; "B"; "C"], ["X"], [["5"]],
                            ["read 1 records but expected 2 records"]))
    by (vm_compute; reflexivity).
  assert (Hraise : parse_cbf 8 no_record = IndexError)
    by (vm_compute; reflexivity).
  split; [|split; [|split]].
  - split; [vm_compute; reflexivity|]. split; [vm_compute; reflexivity|].
    split; [exact Hrun|].
    intros [fuel [hs [hd [rs [es [H Hbad]]]]]].
    pose proof (parse_cbf_deterministic _ _ _ _ _ Hrun H) as Heq.
    injection Heq as <- <- <- <-. destruct Hbad as [Hlen|Hnone]; discriminate.
  - split.
    { intros i c H.
      do 19 (destruct i as [|i]; [vm_compute in H |- *; exact H|]).
      destruct i; discriminate H. }
    split; [repeat split|]. split; [vm_compute; reflexivity|].
    split; vm_compute; reflexivity.
  - split; [vm_compute; reflexivity|]. split; [vm_compute; reflexivity|].
    split; [exact Hraise|].
    intros [fuel [r H]]. exact (parse_cbf_raises _ _ _ _ Hraise H).
  - split; [vm_compute; reflexivity|]. split; vm_compute; reflexivity.
Qed.

(** C7, amended.  Take a buffer in which the field table, of at least one
    column, is followed by at least one record, every record being
    [num_fields] values without zero byte, each with its terminator, and
    then by a well-formed trailer whose count is the number of these
    records; and let the bytes AA 55 33 11 not stand at offsets 4 to 7 behind
    any record but the last.  Then the record loop stops at that trailer, the
    decoder returns exactly these records, and for every run that returns,
    the number of records in the result is the expected count extracted from
    the trailer and the error list holds no record count mismatch. *)
Theorem counted_trailer_agrees (fuel : nat) (cbf : string)
    headings header (num_fields fp : nat) (records : list (list string)) :
  read_prologue fuel cbf = Returns (Table headings header num_fields fp) ->
  0 < num_fields ->
  records <> [] ->
  Forall (fun r => List.length r = num_fields
                   /\ Forall (fun v => count_char NUL v = 0) r) records ->
  (Z.of_nat (List.length records) < 2 ^ 32)%Z ->
  occurs_at (encode_data records ++ trailer (Z.of_nat (List.length records)))
            fp cbf ->
  (forall k, 0 < k < List.length records ->
             ~ mark_at cbf (fp + String.length (encode_data (firstn k records)))) ->
  String.length (encode_data records) < fuel ->
  let stop := fp + String.length (encode_data records) in
  mark_at cbf stop
  /\ parse_cbf fuel cbf = Returns (headings, header, records, [])
  /\ (forall fuel' hs hd rs es,
         parse_cbf fuel' cbf = Returns (hs, hd, rs, es) ->
         trailer_count cbf stop = Returns (Z.of_nat (List.length rs))
         /\ filter is_mismatch_error es = []).
Proof.
  intros Hp Hnf Hne Hall Hn Hocc Hmarks Hfuel stop.
  assert (Hrange : (0 <= Z.of_nat (List.length records) < 2 ^ 32)%Z) by lia.
  assert (Htrailer : occurs_at (trailer (Z.of_nat (List.length records))) stop cbf).
  { apply occurs_at_app in Hocc. apply Hocc. }
  destruct (trailer_read cbf _ _ Hrange Htrailer) as [Hmark Hcount].
  assert (Hrun : parse_cbf fuel cbf = Returns (headings, header, records, [])).
  { rewrite (parse_cbf_through_loop _ _ _ _ _ _ _ Hp
               (data_loop_reads cbf num_fields records fuel fp [] 0%Z (-1)%Z []
                  _ Hne Hnf Hall Hocc Hrange Hmarks Hfuel)).
    unfold reconcile.
    cbn [d_read_records d_expected_records d_errors d_data Z.add app].
    rewrite Z.eqb_refl. reflexivity. }
  split; [apply eof_mark_true; exact Hmark|]. split; [exact Hrun|].
  intros fuel' hs hd rs es H.
  pose proof (parse_cbf_deterministic _ _ _ _ _ Hrun H) as Heq.
  injection Heq as <- <- <- <-. split; [exact Hcount|reflexivity].
Qed.

Lemma counted_trailer_agrees_witness :
  parse_cbf 4 scenario_documented = Returns (["A"; "B"; "C"], ["X"], [["5"]], []).
Proof.
  destruct (counted_trailer_agrees 4 scenario_documented
              ["A"; "B"; "C"]%string ["X"%string] 1 19 [["5"%string]])
    as [_ [H _]].
  - vm_compute. reflexivity.
  - lia.
  - discriminate.
  - repeat constructor.
  - vm_compute. reflexivity.
  - intros i c H.
    do 10 (destruct i as [|i]; [vm_compute in H |- *; exact H|]).
    destruct i; discriminate H.
  - simpl. intros k Hk. lia.
  - apply Nat.ltb_lt. vm_compute. reflexivity.
  - exact H.
Defined.
